(** * vuex-dash-dpp: the payload regulator, the batch broadcaster, the bulk
    mutation planner, the paginated fetcher and the lazy singleton triggers.

    A shallow embedding of [src/vuex-dash-dpp.js].  JavaScript objects are
    association lists in enumeration order, the mirror of a document module
    is a finite map, asynchronous actions are functions of the store that
    return the new store together with an outcome (a value, a thrown
    exception, or fuel exhaustion for the two unbounded recursions and the
    pagination loop). *)

From Stdlib Require Import NArith ZArith Lia Bool.
From stdpp Require Import base gmap strings list fin_maps pretty.

Open Scope string_scope.
Open Scope nat_scope.
Open Scope list_scope.

(** ** JavaScript objects *)

(** A plain object, as far as the plugin looks at it: its own enumerable
    string keys in enumeration order, each with a value.  Keys are unique. *)
Definition obj (V : Type) : Type := list (string * V).

(** lodash [keys]. *)
Definition keys {V} (o : obj V) : list string := map fst o.

(** [o[k]]; [None] is [undefined]. *)
Fixpoint obj_get {V} (k : string) (o : obj V) : option V :=
  match o with
  | [] => None
  | (k', v) :: rest => if String.eqb k k' then Some v else obj_get k rest
  end.

(** [o[k] = v]: an existing key keeps its place, a new one goes last. *)
Fixpoint obj_set {V} (k : string) (v : V) (o : obj V) : obj V :=
  match o with
  | [] => [(k, v)]
  | (k', v') :: rest =>
      if String.eqb k k' then (k', v) :: rest else (k', v') :: obj_set k v rest
  end.

(** lodash [times(n, iteratee)]. *)
Definition times {A} (n : nat) (iteratee : nat -> A) : list A :=
  map iteratee (seq 0 n).

(** lodash [stubArray]. *)
Definition stubArray {A} (_ : nat) : list A := [].

(** lodash [zipObject(props, values)]: assigns [values[i]] to [props[i]] from
    left to right. *)
Definition zipObject {V} (props : list string) (values : list V) : obj V :=
  fold_left (fun o kv => obj_set (fst kv) (snd kv) o) (combine props values) [].

(** An object with the keys of [o], each holding an empty array. *)
Definition blank {A V} (o : obj V) : obj (list A) :=
  map (fun entry => (fst entry, [])) o.

(** ** The payload regulator *)

Definition MAX_DOCUMENTS_PER_QUERY : nat := 100.
Definition MAX_KILOBYTES_PER_PAYLOAD : N := 4.
Definition MAX_DOCUMENTS_PER_PAYLOAD : nat := 10.

Arguments MAX_DOCUMENTS_PER_QUERY : simpl never.
Arguments MAX_KILOBYTES_PER_PAYLOAD : simpl never.
Arguments MAX_DOCUMENTS_PER_PAYLOAD : simpl never.

(** The test of [regulatePayload]: [size < MAX_KILOBYTES_PER_PAYLOAD &&
    limit <= MAX_DOCUMENTS_PER_PAYLOAD], the size counted in bytes (see
    [regulation] below). *)
Definition within_budgets (size_bytes : N) (limit : nat) : bool :=
  (size_bytes <? MAX_KILOBYTES_PER_PAYLOAD * 1024)%N
  && (limit <=? MAX_DOCUMENTS_PER_PAYLOAD).

Arguments within_budgets : simpl never.

Section Regulator.
Context {Item : Type}.

(** [new TextEncoder().encode(JSON.stringify(item)).length]: the number of
    bytes of the serialized item. *)
Variable encoded_length : Item -> N.

(** The variables of [regulatePayload].  The source keeps [size] in
    kilobytes, adding [encoded.length / 1024]; every such term and every
    partial sum is a multiple of 2^-10 and, below 2^43 bytes in all, is exact
    in a double, so [size] is kept here as [size_bytes], 1024 times the
    source's value, and the
    test [size < MAX_KILOBYTES_PER_PAYLOAD] reads
    [size_bytes < MAX_KILOBYTES_PER_PAYLOAD * 1024]. *)
Record regulation : Type := Regulation {
  included : obj (list Item);
  remainder : obj (list Item);
  size_bytes : N;
  limit : nat
}.

(** [o[key] = [...o[key], item]], and [o[key].push(item)]; wherever it is
    used [o] has the key. *)
Definition obj_append (key : string) (item : Item) (o : obj (list Item))
  : obj (list Item) :=
  obj_set key (default [] (obj_get key o) ++ [item]) o.

(** The body of the inner [each]. *)
Definition visit (key : string) (st : regulation) (item : Item) : regulation :=
  let size' := (size_bytes st + encoded_length item)%N in
  let limit' := limit st + 1 in
  if within_budgets size' limit'
  then Regulation (obj_append key item (included st)) (remainder st) size' limit'
  else Regulation (included st) (obj_append key item (remainder st)) size' limit'.

(** The body of the outer [each]. *)
Definition visit_key (st : regulation) (entry : string * list Item) : regulation :=
  fold_left (visit (fst entry)) (snd entry) st.

Definition regulate (payload : obj (list Item)) : regulation :=
  let payloadKeys := keys payload in
  let payloadValues := times (length payloadKeys) stubArray in
  fold_left visit_key payload
    (Regulation (zipObject payloadKeys payloadValues)
                (zipObject payloadKeys payloadValues) 0%N 0).

(** [regulatePayload] returns [{ included, remainder }]. *)
Definition regulatePayload (payload : obj (list Item))
  : obj (list Item) * obj (list Item) :=
  let st := regulate payload in (included st, remainder st).

(** *** The split, stated by position *)

(** The items in visit order. *)
Definition visit_order (payload : obj (list Item)) : list Item :=
  concat (map snd payload).

Definition total_bytes (items : list Item) : N :=
  fold_right (fun item acc => (encoded_length item + acc)%N) 0%N items.

(** Whether the [n]-th visited item (from 0) passes the test of [visit]:
    the counters then hold the bytes of the first [n + 1] items and
    [n + 1]. *)
Definition passes (items : list Item) (n : nat) : bool :=
  within_budgets (total_bytes (take (S n) items)) (S n).

(** How many items of [items] are visited before the first one that fails
    the test, the counters starting at [bytes] and [count]. *)
Fixpoint cut_from (bytes : N) (count : nat) (items : list Item) : nat :=
  match items with
  | [] => 0
  | item :: rest =>
      let bytes' := (bytes + encoded_length item)%N in
      if within_budgets bytes' (S count)
      then S (cut_from bytes' (S count) rest)
      else 0
  end.

Definition cut (payload : obj (list Item)) : nat :=
  cut_from 0%N 0 (visit_order payload).

(** The first [c] items in visit order, key by key, and the others. *)
Fixpoint take_entries (c : nat) (payload : obj (list Item)) : obj (list Item) :=
  match payload with
  | [] => []
  | (k, items) :: rest => (k, take c items) :: take_entries (c - length items) rest
  end.

Fixpoint drop_entries (c : nat) (payload : obj (list Item)) : obj (list Item) :=
  match payload with
  | [] => []
  | (k, items) :: rest => (k, drop c items) :: drop_entries (c - length items) rest
  end.

(** Once a counter has crossed its budget no later item passes the test. *)
Definition exhausted (bytes : N) (count : nat) : Prop :=
  (MAX_KILOBYTES_PER_PAYLOAD * 1024 <= bytes)%N \/ MAX_DOCUMENTS_PER_PAYLOAD < count.

End Regulator.

Arguments regulation : clear implicits.


(** ** JavaScript values *)

(** The values a raw item can hold.  Numbers are kept as integers; a nested
    array or object, which the plugin never looks into, is kept as its JSON
    text. *)
Inductive jsval : Type :=
| JUndefined
| JNull
| JBool (b : bool)
| JNum (n : Z)
| JStr (s : string)
| JNested (json : string).

(** The value as an [if] condition sees it. *)
Definition truthy (v : jsval) : bool :=
  match v with
  | JUndefined | JNull => false
  | JBool b => b
  | JNum n => negb (n =? 0)%Z
  | JStr s => negb (String.eqb s "")
  | JNested _ => true
  end.

(** [o.k] on a plain object. *)
Definition prop (k : string) (o : obj jsval) : jsval :=
  default JUndefined (obj_get k o).

(** lodash [startsWith(string, target)]. *)
Definition startsWith (s target : string) : bool := String.prefix target s.

(** lodash [pickBy(object, predicate)], the predicate taking [(value, key)]. *)
Definition pickBy {V} (o : obj V) (predicate : V -> string -> bool) : obj V :=
  filter (fun entry => predicate (snd entry) (fst entry) = true) o.

(** ** Exceptions and outcomes *)

Inductive exn : Type :=
| TypeError (what : string)
| RemoteError (what : string).

(** What a call into the Dash client does. *)
Inductive response (A : Type) : Type :=
| Returns (a : A)
| Throws (e : exn).

Arguments Returns {A} a.
Arguments Throws {A} e.

(** What a dispatched action comes to: its promise resolves, it rejects, or
    the fuel given to the model ran out before it settled. *)
Inductive outcome (A : Type) : Type :=
| Resolved (a : A)
| Rejected (e : exn)
| OutOfFuel.

Arguments Resolved {A} a.
Arguments Rejected {A} e.
Arguments OutOfFuel {A}.

(** An action over a state [St]. *)
Definition action (St A : Type) : Type := St -> St * outcome A.

Definition ret {St A} (a : A) : action St A := fun s => (s, Resolved a).

Definition throw {St A} (e : exn) : action St A := fun s => (s, Rejected e).

Definition out_of_fuel {St A} : action St A := fun s => (s, OutOfFuel).

Definition bind {St A B} (m : action St A) (k : A -> action St B) : action St B :=
  fun s =>
    match m s with
    | (s', Resolved a) => k a s'
    | (s', Rejected e) => (s', Rejected e)
    | (s', OutOfFuel) => (s', OutOfFuel)
    end.

(** [try { m } catch (e) { handler }]. *)
Definition try_catch {St A} (m : action St A) (handler : exn -> action St A)
  : action St A :=
  fun s =>
    match m s with
    | (s', Rejected e) => handler e s'
    | settled => settled
    end.

Declare Scope action_scope.
Delimit Scope action_scope with action.
Notation "x <- m ;; k" := (bind m (fun x => k))
  (at level 20, m at level 99, k at level 200, only parsing) : action_scope.
Notation "m ;; k" := (bind m (fun _ => k))
  (at level 100, k at level 200, only parsing, right associativity) : action_scope.
Open Scope action_scope.

(** [await] on a call that has come back. *)
Definition await {St A} (r : response A) : action St A :=
  match r with
  | Returns a => ret a
  | Throws e => throw e
  end.

(** lodash [each(collection, iteratee)] with an iteratee run for its effect. *)
Fixpoint each {St A} (collection : list A) (iteratee : A -> action St unit)
  : action St unit :=
  match collection with
  | [] => ret tt
  | x :: rest => iteratee x;; each rest iteratee
  end.

(** ** What the plugin takes from outside *)

(** The queries the document module sends through [retrieve]. *)
Inductive query : Type :=
| PageQuery (allQuery : obj jsval) (startAt limit : nat)
    (** [{ ...options.allQuery, startAt, limit }] *)
| IdQuery (id : jsval)
    (** [{ where: [["$id", "==", id]] }] *).

(** The Dash client of one document type, the [Document] objects it hands
    out, and the serializer.  [Remote] is all the state behind the client,
    the acting identity read through the root getter included; each call
    takes it and gives it back changed. *)
Class Platform : Type := {
  Remote : Type;
  Document : Type;
  Snapshot : Type;
  (** [document.toJSON()] and the [$id] of the result, as a property key *)
  toJSON : Document -> Snapshot;
  snapshot_id : Snapshot -> string;
  (** [document.setData(data)] *)
  setData : Document -> obj jsval -> Document;
  (** byte length of [JSON.stringify] of a document and of a raw item *)
  document_length : Document -> N;
  raw_length : obj jsval -> N;
  (** [client.platform.documents.get], [.create] and [.broadcast] *)
  documents_get : Remote -> query -> Remote * response (list Document);
  documents_create : Remote -> obj jsval -> Remote * response Document;
  documents_broadcast :
    Remote -> obj (list (option Document)) -> Remote * response unit
}.

Section DocumentModule.
Context `{Platform}.

(** A value that is a [Document] or [undefined]: what [head] and [compose]
    return and what the operation arrays hold. *)
Definition item : Type := option Document.

(** [JSON.stringify(undefined)] is [undefined], which [encode] takes as the
    empty string. *)
Definition item_length (i : item) : N :=
  match i with
  | Some document => document_length document
  | None => 0%N
  end.

(** The calls made on the client, for counting them. *)
Inductive call : Type :=
| Get (payload : query)
| Create (payload : obj jsval)
| Broadcast (batch : obj (list item)).

(** The store as one document module sees it: the remote side, the local
    mirror [state.documents], the calls made so far (oldest first) and what
    went to [console.debug]. *)
Record store : Type := Store {
  remote : Remote;
  documents : gmap string Snapshot;
  calls : list call;
  console : list exn
}.

Definition console_debug (e : exn) : action store unit :=
  fun s => (Store (remote s) (documents s) (calls s) (console s ++ [e]), Resolved tt).

(** *** Mutations *)

(** [keyBy(collection, "$id")]: a later snapshot replaces an earlier one with
    the same [$id]. *)
Definition keyBy (collection : list Snapshot) : gmap string Snapshot :=
  fold_left (fun m snapshot => <[snapshot_id snapshot := snapshot]> m) collection ∅.

Definition set_documents (m : gmap string Snapshot) : action store unit :=
  fun s => (Store (remote s) m (calls s) (console s), Resolved tt).

Definition get_documents : action store (gmap string Snapshot) :=
  fun s => (s, Resolved (documents s)).

(** [mutations.all]: [invokeMap(payload, "toJSON")] then [keyBy]. *)
Definition commit_all (payload : list Document) : action store unit :=
  set_documents (keyBy (map toJSON payload)).

(** [mutations.one]; [payload.toJSON()] throws on [undefined]. *)
Definition commit_one (payload : item) : action store unit :=
  match payload with
  | None => throw (TypeError "payload.toJSON")
  | Some document =>
      state_documents <- get_documents;;
      set_documents (<[snapshot_id (toJSON document) := toJSON document]> state_documents)
  end.

(** [mutations.remove]. *)
Definition commit_remove (payload : item) : action store unit :=
  match payload with
  | None => throw (TypeError "payload.toJSON")
  | Some document =>
      state_documents <- get_documents;;
      set_documents (delete (snapshot_id (toJSON document)) state_documents)
  end.

(** *** Calls on the client *)

Definition client_call {A} (c : call) (f : Remote -> Remote * response A)
  : action store A :=
  fun s =>
    let (r, res) := f (remote s) in
    await res (Store r (documents s) (calls s ++ [c]) (console s)).

(** *** Actions *)

(** [actions.retrieve]. *)
Definition retrieve (payload : query) : action store (list Document) :=
  client_call (Get payload) (fun r => documents_get r payload).

(** The loop of [actions.all]; [fuel] bounds the number of iterations. *)
Fixpoint all_loop (fuel : nat) (allQuery : obj jsval) (all : list Document)
    (page : nat) : action store (list Document) :=
  if page * MAX_DOCUMENTS_PER_QUERY <=? length all then
    match fuel with
    | 0 => out_of_fuel
    | S fuel =>
        let query := PageQuery allQuery (page * MAX_DOCUMENTS_PER_QUERY)
                       MAX_DOCUMENTS_PER_QUERY in
        results <- retrieve query;;
        all_loop fuel allQuery (all ++ results) (page + 1)
    end
  else ret all.

(** [actions.all], with [options.allQuery] of the root state. *)
Definition all (fuel : nat) (allQuery : obj jsval) : action store (list Document) :=
  all <- all_loop fuel allQuery [] 0;;
  commit_all all;;
  ret all.

(** A parameter declared [payload = null]: the default replaces
    [undefined]. *)
Definition default_null (payload : jsval) : jsval :=
  match payload with
  | JUndefined => JNull
  | _ => payload
  end.

(** [actions.one]. *)
Definition one (payload : jsval) : action store item :=
  let payload := default_null payload in
  results <- retrieve (IdQuery payload);;
  let one := head results in
  commit_one one;;
  ret one.

(** [actions.compose]; after the [catch] it returns [undefined]. *)
Definition compose (payload : obj jsval) : action store item :=
  try_catch
    (composed <- client_call (Create payload) (fun r => documents_create r payload);;
     ret (Some composed))
    (fun e => console_debug e;; ret None).

(** [o[k].length]; reading [length] of [undefined] throws. *)
Definition array_length (k : string) (o : obj (list item)) : action store nat :=
  match obj_get k o with
  | Some array => ret (length array)
  | None => throw (TypeError ("length of undefined " ++ k)%string)
  end.

(** [o.create.length || o.replace.length || o.delete.length] as a
    condition. *)
Definition any_length (o : obj (list item)) : action store bool :=
  created <- array_length "create" o;;
  if 0 <? created then ret true else
  replaced <- array_length "replace" o;;
  if 0 <? replaced then ret true else
  deleted <- array_length "delete" o;;
  ret (0 <? deleted).

(** How the [try] block of [broadcast] is left: [return true], or
    [return dispatch("broadcast", remainder)], whose promise is handed on
    without [await]. *)
Inductive completion : Type :=
| ReturnTrue
| ReturnDispatch (remainder : obj (list item)).

Definition broadcast_try (payload : obj (list item)) : action store completion :=
  let (included, remainder) := regulatePayload item_length payload in
  submit <- any_length included;;
  (if submit : bool
   then client_call (Broadcast included) (fun r => documents_broadcast r included)
   else ret tt);;
  more <- any_length remainder;;
  if more : bool then ret (ReturnDispatch remainder) else ret ReturnTrue.

(** [actions.broadcast]; [fuel] bounds the depth of the dispatches. *)
Fixpoint broadcast (fuel : nat) (payload : obj (list item)) : action store bool :=
  match fuel with
  | 0 => out_of_fuel
  | S fuel =>
      left <- try_catch (c <- broadcast_try payload;; ret (Some c))
                        (fun e => console_debug e;; ret None);;
      match left with
      | Some ReturnTrue => ret true
      | Some (ReturnDispatch remainder) => broadcast fuel remainder
      | None => ret false
      end
  end.

(** [replaced.setData(data)]; it throws on [undefined]. *)
Definition call_setData (replaced : item) (data : obj jsval) : action store item :=
  match replaced with
  | Some document => ret (Some (setData document data))
  | None => throw (TypeError "replaced.setData")
  end.

(** The body of the [for await] loop of [multiple]; [documents] is the object
    [{ create, replace, delete }] the loop pushes to. *)
Definition plan_item (documents : obj (list item)) (raw : obj jsval)
  : action store (obj (list item)) :=
  if decide (keys raw = ["$id"]) then
    deleted <- one (prop "$id" raw);;
    ret (obj_append "delete" deleted documents)
  else if truthy (prop "$id" raw) then
    replaced <- one (prop "$id" raw);;
    replaced <- call_setData replaced
                  (pickBy raw (fun value key => negb (startsWith key "$")));;
    ret (obj_append "replace" replaced documents)
  else
    created <- compose raw;;
    ret (obj_append "create" created documents).

Fixpoint plan (items : list (obj jsval)) (documents : obj (list item))
  : action store (obj (list item)) :=
  match items with
  | [] => ret documents
  | raw :: rest => documents <- plan_item documents raw;; plan rest documents
  end.

(** [o.k] where the value is an array known to be there. *)
Definition array_of {A} (k : string) (o : obj (list A)) : list A :=
  default [] (obj_get k o).

(** [actions.multiple].  It returns [true] or, falling off the end,
    [undefined] ([None]).  [remainder.length] is the property [length] of the
    object [{ items }]. *)
Fixpoint multiple (fuel : nat) (payload : list (obj jsval))
  : action store (option bool) :=
  match fuel with
  | 0 => out_of_fuel
  | S fuel =>
      let (included, remainder) := regulatePayload raw_length [("items", payload)] in
      let documents : obj (list item) :=
        [("create", []); ("replace", []); ("delete", [])] in
      try_catch
        (documents <- plan (array_of "items" included) documents;;
         success <- broadcast fuel documents;;
         if success : bool then
           each (array_of "create" documents ++ array_of "replace" documents)
                commit_one;;
           each (array_of "delete" documents) commit_remove;;
           match obj_get "length" remainder with
           | Some _ => multiple fuel (array_of "items" remainder)
           | None => ret (Some true)
           end
         else ret None)
        (fun e => console_debug e;; ret None)
  end.

(** [actions.create]. *)
Definition create (fuel : nat) (payload : obj jsval) : action store unit :=
  try_catch
    (created <- compose payload;;
     success <- broadcast fuel [("create", [created])];;
     if success : bool then commit_one created else ret tt)
    console_debug.

(** [actions.replace]. *)
Definition replace (fuel : nat) (payload : obj jsval) : action store unit :=
  try_catch
    (replaced <- one (prop "$id" payload);;
     replaced <- call_setData replaced payload;;
     success <- broadcast fuel [("replace", [replaced])];;
     if success : bool then commit_one replaced else ret tt)
    console_debug.

(** [actions.delete]. *)
Definition delete (fuel : nat) (payload : obj jsval) : action store unit :=
  try_catch
    (deleted <- one (prop "$id" payload);;
     success <- broadcast fuel [("delete", [deleted])];;
     if success : bool then commit_remove deleted else ret tt)
    console_debug.

End DocumentModule.

(** ** The root module: the two lazily fetched singletons *)

Inductive resource_kind : Type := Account | Identity.

#[global] Instance resource_kind_eq_dec : EqDecision resource_kind.
Proof. solve_decision. Defined.

Section RootModule.
(** The wallet account, or the identity, that the client resolves. *)
Context {Resource : Type}.

(** The four state fields of one resource: [account], [accountInit],
    [accountSynced], [accountSyncing] (and the same for [identity]).
    [value] stands for the thunk [() => account]; [init] refers to a function
    made by [once], by its number; [synced] is [false] ([None]) or a
    [Date.now()]. *)
Record sync_state : Type := SyncState {
  value : option Resource;
  init : option nat;
  synced : option Z;
  syncing : bool
}.

(** A function made by lodash [once]: which action it dispatches, and whether
    it has been called. *)
Record once_fn : Type := OnceFn {
  target : resource_kind;
  called : bool
}.

(** A call of [getWalletAccount] or [identities.get]. *)
Inductive fetch_status : Type :=
| InFlight
| Settled (res : response Resource).

(** The root module with what surrounds it: the options read by [init], the
    two resources, every function [once] has made, every fetch issued, every
    commit of a [Date.now()] to a [Synced] field, the [TRANSACTION] listeners
    registered, and the debug log. *)
Record root : Type := Root {
  mnemonic : jsval;
  identityId : jsval;
  account : sync_state;
  identity : sync_state;
  identityRegistering : bool;
  onces : list once_fn;
  fetches : list (resource_kind * fetch_status);
  stamps : list (resource_kind * Z);
  listeners : nat;
  debugged : list exn
}.

Definition resource (k : resource_kind) (s : root) : sync_state :=
  match k with Account => account s | Identity => identity s end.

Definition set_resource (k : resource_kind) (st : sync_state) (s : root) : root :=
  match k with
  | Account =>
      Root (mnemonic s) (identityId s) st (identity s) (identityRegistering s)
        (onces s) (fetches s) (stamps s) (listeners s) (debugged s)
  | Identity =>
      Root (mnemonic s) (identityId s) (account s) st (identityRegistering s)
        (onces s) (fetches s) (stamps s) (listeners s) (debugged s)
  end.

(** *** Mutations *)

Definition commit_value (k : resource_kind) (payload : option Resource)
  : action root unit :=
  fun s =>
    let st := resource k s in
    (set_resource k (SyncState payload (init st) (synced st) (syncing st)) s,
     Resolved tt).

Definition commit_init (k : resource_kind) (payload : option nat)
  : action root unit :=
  fun s =>
    let st := resource k s in
    (set_resource k (SyncState (value st) payload (synced st) (syncing st)) s,
     Resolved tt).

Definition commit_synced (k : resource_kind) (payload : option Z)
  : action root unit :=
  fun s =>
    let st := resource k s in
    (set_resource k (SyncState (value st) (init st) payload (syncing st)) s,
     Resolved tt).

Definition commit_syncing (k : resource_kind) (payload : bool)
  : action root unit :=
  fun s =>
    let st := resource k s in
    (set_resource k (SyncState (value st) (init st) (synced st) payload) s,
     Resolved tt).

Definition commit_identityRegistering (payload : bool) : action root unit :=
  fun s =>
    (Root (mnemonic s) (identityId s) (account s) (identity s) payload
       (onces s) (fetches s) (stamps s) (listeners s) (debugged s),
     Resolved tt).

(** [commit(k + "Synced", Date.now())], the clock reading [now]. *)
Definition stamp_synced (k : resource_kind) (now : Z) : action root unit :=
  commit_synced k (Some now);;
  fun s =>
    (Root (mnemonic s) (identityId s) (account s) (identity s)
       (identityRegistering s) (onces s) (fetches s) (stamps s ++ [(k, now)])
       (listeners s) (debugged s),
     Resolved tt).

(** *** What is outside the state *)

(** [once(() => dispatch(k + "Init"))]: a new function, by its number. *)
Definition once (k : resource_kind) : action root nat :=
  fun s =>
    (Root (mnemonic s) (identityId s) (account s) (identity s)
       (identityRegistering s) (onces s ++ [OnceFn k false]) (fetches s)
       (stamps s) (listeners s) (debugged s),
     Resolved (length (onces s))).

Definition set_onces (l : list once_fn) : action root unit :=
  fun s =>
    (Root (mnemonic s) (identityId s) (account s) (identity s)
       (identityRegistering s) l (fetches s) (stamps s) (listeners s)
       (debugged s),
     Resolved tt).

Definition set_fetches (l : list (resource_kind * fetch_status))
  : action root unit :=
  fun s =>
    (Root (mnemonic s) (identityId s) (account s) (identity s)
       (identityRegistering s) (onces s) l (stamps s) (listeners s)
       (debugged s),
     Resolved tt).

(** [account.on("TRANSACTION", ...)]. *)
Definition add_listener : action root unit :=
  fun s =>
    (Root (mnemonic s) (identityId s) (account s) (identity s)
       (identityRegistering s) (onces s) (fetches s) (stamps s)
       (S (listeners s)) (debugged s),
     Resolved tt).

Definition root_debug (e : exn) : action root unit :=
  fun s =>
    (Root (mnemonic s) (identityId s) (account s) (identity s)
       (identityRegistering s) (onces s) (fetches s) (stamps s) (listeners s)
       (debugged s ++ [e]),
     Resolved tt).

Definition get_root : action root root := fun s => (s, Resolved s).

(** *** Actions *)

(** [actions.init]. *)
Definition dispatch_init : action root unit :=
  commit_value Account None;;
  commit_synced Account None;;
  commit_syncing Account false;;
  commit_value Identity None;;
  commit_synced Identity None;;
  commit_syncing Identity false;;
  commit_identityRegistering false;;
  s <- get_root;;
  (if truthy (mnemonic s)
   then (f <- once Account;; commit_init Account (Some f))
   else commit_init Account None);;
  (if truthy (identityId s)
   then (f <- once Identity;; commit_init Identity (Some f))
   else commit_init Identity None).

(** [actions.accountInit] and [actions.identityInit] up to their [await]:
    the fetch is issued and is in flight. *)
Definition init_begin (k : resource_kind) : action root unit :=
  commit_syncing k true;;
  s <- get_root;;
  set_fetches (fetches s ++ [(k, InFlight)]).

(** The same actions from the [await] on, the fetch having come back with
    [res] and [Date.now()] reading [now]. *)
Definition init_resume (k : resource_kind) (res : response Resource) (now : Z)
  : action root unit :=
  try_catch
    (fetched <- await res;;
     (match k with Account => add_listener | Identity => ret tt end);;
     commit_value k (Some fetched);;
     commit_init k None;;
     stamp_synced k now)
    root_debug;;
  commit_syncing k false.

(** Calling the function number [f] made by [once]: the first call
    dispatches, later calls do nothing. *)
Definition call_once (f : nat) : action root unit :=
  s <- get_root;;
  match onces s !! f with
  | Some (OnceFn k false) =>
      set_onces (<[f := OnceFn k true]> (onces s));;
      init_begin k
  | _ => ret tt
  end.

(** [false] and [0] are the falsy values of a [Synced] field. *)
Definition synced_truthy (st : sync_state) : bool :=
  match synced st with
  | Some now => negb (now =? 0)%Z
  | None => false
  end.

(** [getters.account] and [getters.identity]; only the second asks for
    [getters.options.identityId] before it calls the function. *)
Definition getter (k : resource_kind) : action root (option Resource) :=
  s <- get_root;;
  let st := resource k s in
  let ready :=
    match value st with
    | Some fetched => if synced_truthy st then Some fetched else None
    | None => None
    end in
  match ready with
  | Some fetched => ret (Some fetched)
  | None =>
      (match init st with
       | Some f =>
           if match k with Account => true | Identity => truthy (identityId s) end
           then call_once f else ret tt
       | None => ret tt
       end);;
      ret None
  end.

(** *** What can happen to the root module *)

Inductive event : Type :=
| DispatchInit
| ReadGetter (k : resource_kind)
| CallTrigger (f : nat)
| FetchSettles (n : nat) (res : response Resource) (now : Z)
| Transaction (now : Z).

(** The listener of [TRANSACTION], once per registration. *)
Fixpoint on_transaction (registered : nat) (now : Z) : action root unit :=
  match registered with
  | 0 => ret tt
  | S registered => stamp_synced Account now;; on_transaction registered now
  end.

Definition handle (e : event) : action root unit :=
  match e with
  | DispatchInit => dispatch_init
  | ReadGetter k => getter k;; ret tt
  | CallTrigger f => call_once f
  | FetchSettles n res now =>
      s <- get_root;;
      match fetches s !! n with
      | Some (k, InFlight) =>
          set_fetches (<[n := (k, Settled res)]> (fetches s));;
          init_resume k res now
      | _ => ret tt
      end
  | Transaction now =>
      s <- get_root;;
      on_transaction (listeners s) now
  end.

Definition step (e : event) (s : root) : root := fst (handle e s).

Definition run (events : list event) (s : root) : root :=
  fold_left (fun s e => step e s) events s.

(** The state the module is registered with. *)
Definition registered (options_mnemonic options_identityId : jsval) : root :=
  Root options_mnemonic options_identityId
    (SyncState None None None false) (SyncState None None None false) false
    [] [] [] 0 [].

(** How many fetches of [k] were issued, and how many times a [Date.now()]
    went to its [Synced] field. *)
Definition fetch_calls (k : resource_kind) (s : root) : nat :=
  length (filter (fun f => fst f = k) (fetches s)).

Definition synced_stamps (k : resource_kind) (s : root) : nat :=
  length (filter (fun f => fst f = k) (stamps s)).

End RootModule.

Arguments sync_state : clear implicits.
Arguments root : clear implicits.
Arguments event : clear implicits.
Arguments fetch_status : clear implicits.

(** ** Batches *)

(** An operation set: an object with the three arrays [create], [replace]
    and [delete], in any order of the keys. *)
Definition OperationSet {A} (payload : obj (list A)) : Prop :=
  keys payload ≡ₚ ["create"; "replace"; "delete"].

(** Whether some array of the object holds an item. *)
Definition any_nonempty {A} (o : obj (list A)) : bool :=
  existsb (fun entry => 0 <? length (snd entry)) o.

Section Batches.
Context `{Platform}.

(** The batches that regulating a payload again and again cuts from it, in
    the order they are cut; [None] when [fuel] rounds do not exhaust it. *)
Fixpoint cuts (fuel : nat) (payload : obj (list item))
  : option (list (obj (list item))) :=
  match fuel with
  | 0 => None
  | S fuel =>
      let (included, remainder) := regulatePayload item_length payload in
      let batch := if any_nonempty included then [included] else [] in
      if any_nonempty remainder
      then option_map (app batch) (cuts fuel remainder)
      else Some batch
  end.

(** Submitting batches one after the other; the first one that throws is
    logged and ends it with [false]. *)
Fixpoint submit_all (batches : list (obj (list item))) : action store bool :=
  match batches with
  | [] => ret true
  | batch :: rest =>
      sent <- try_catch
                (client_call (Broadcast batch)
                   (fun r => documents_broadcast r batch);;
                 ret true)
                (fun e => console_debug e;; ret false);;
      if sent : bool then submit_all rest else ret false
  end.

(** The remote, asked for page after page from [page] on, answers with
    [pages] in turn. *)
Fixpoint serves (allQuery : obj jsval) (r : Remote) (page : nat)
    (pages : list (list Document)) : Prop :=
  match pages with
  | [] => True
  | results :: rest =>
      exists r',
        documents_get r
          (PageQuery allQuery (page * MAX_DOCUMENTS_PER_QUERY)
             MAX_DOCUMENTS_PER_QUERY)
        = (r', Returns results)
        /\ serves allQuery r' (S page) rest
  end.

(** The mirror after the commits of [multiple]: the created and replaced
    documents put in, then the deleted ones taken out. *)
Definition mirror_after (created replaced deleted : list Document)
    (mirror : gmap string Snapshot) : gmap string Snapshot :=
  fold_left (fun m document => base.delete (snapshot_id (toJSON document)) m)
    deleted
    (fold_left
       (fun m document => <[snapshot_id (toJSON document) := toJSON document]> m)
       (created ++ replaced) mirror).

(** An action that leaves the mirror as it was. *)
Definition keeps_documents {A} (m : action store A) : Prop :=
  forall s, documents (fst (m s)) = documents s.

(** An action that only adds to the calls made. *)
Definition adds_calls {A} (m : action store A) : Prop :=
  forall s, exists more, calls (fst (m s)) = calls s ++ more.

(** The queries of the first [n] pages. *)
Definition page_queries (allQuery : obj jsval) (n : nat) : list call :=
  map (fun page =>
         Get (PageQuery allQuery (page * MAX_DOCUMENTS_PER_QUERY)
                MAX_DOCUMENTS_PER_QUERY))
      (seq 0 n).

End Batches.

(** ** A scripted platform for the scenarios *)

#[global] Instance jsval_eq_dec : EqDecision jsval.
Proof. solve_decision. Defined.

Record stub_document : Type := StubDocument {
  stub_id : string;
  stub_data : obj jsval;
  stub_bytes : N
}.

(** The collection held remotely, and for each coming call whether it
    throws; calls beyond the script succeed. *)
Record stub_remote : Type := StubRemote {
  collection : list stub_document;
  script : list bool
}.

Definition stub_respond {A} (r : stub_remote) (a : A) : stub_remote * response A :=
  match script r with
  | true :: rest => (StubRemote (collection r) rest, Throws (RemoteError "scripted"))
  | false :: rest => (StubRemote (collection r) rest, Returns a)
  | [] => (r, Returns a)
  end.

(** The size of a raw item is its number field [bytes], or 1. *)
Definition stub_raw_length (raw : obj jsval) : N :=
  match prop "bytes" raw with
  | JNum n => Z.to_N n
  | _ => 1%N
  end.

Definition stub_get (r : stub_remote) (q : query)
  : stub_remote * response (list stub_document) :=
  stub_respond r
    match q with
    | PageQuery _ startAt limit => take limit (drop startAt (collection r))
    | IdQuery id =>
        filter (fun document => JStr (stub_id document) = id) (collection r)
    end.

Definition stub_create (r : stub_remote) (fields : obj jsval)
  : stub_remote * response stub_document :=
  stub_respond r (StubDocument "" fields (stub_raw_length fields)).

#[global] Instance stub_platform : Platform := {|
  Remote := stub_remote;
  Document := stub_document;
  Snapshot := stub_document;
  toJSON := fun document => document;
  snapshot_id := stub_id;
  setData := fun document data =>
    StubDocument (stub_id document) data (stub_bytes document);
  document_length := stub_bytes;
  raw_length := stub_raw_length;
  documents_get := stub_get;
  documents_create := stub_create;
  documents_broadcast := fun r _ => stub_respond r tt
|}.

(** [n] documents of [bytes] bytes each, named from [start] on. *)
Definition stub_documents (start n : nat) (bytes : N) : list stub_document :=
  map (fun i => StubDocument (String (Ascii.ascii_of_nat (65 + i)) "") [] bytes)
      (seq start n).

Definition stub_store (documents : list stub_document) (calls_script : list bool)
  : store :=
  Store (StubRemote documents calls_script) ∅ [] [].

(** *** Scenario payloads *)

(** Twenty-five documents of one byte each to create: three batches. *)
Definition three_batches : obj (list (@item stub_platform)) :=
  [("create", map Some (stub_documents 0 25 1)); ("replace", []); ("delete", [])].

(** A first document of 4 KB, then a small one. *)
Definition oversized_first : obj (list (@item stub_platform)) :=
  [("create", [Some (StubDocument "A" [] 4096)]);
   ("replace", [Some (StubDocument "B" [] 1)]);
   ("delete", [])].

(** Items that are their own sizes: the third crosses 4 KB. *)
Definition sample_payload : obj (list N) :=
  [("create", [1500; 1500; 1500]%N); ("replace", [10]%N)].

(** The raw items of the classification scenario, and the two records the
    remote holds. *)
Definition scenario_items : list (obj jsval) :=
  [[("$id", JStr "A")];
   [("$id", JStr "B"); ("name", JStr "x")];
   [("name", JStr "y")]].

Definition scenario_collection : list stub_document :=
  [StubDocument "A" [("name", JStr "a")] 20;
   StubDocument "B" [("name", JStr "b")] 20].

(** The object [multiple] starts its plan with. *)
Definition no_documents {A} : obj (list A) :=
  [("create", []); ("replace", []); ("delete", [])].

(** A record to delete, then one to create. *)
Definition delete_then_create : list (obj jsval) :=
  [[("$id", JStr "A")]; [("name", JStr "y")]].

(** Eleven raw items to create, of one byte each. *)
Definition eleven_items : list (obj jsval) :=
  map (fun i => [("n", JNum (Z.of_nat i))]) (seq 0 11).

(** *** Armed triggers *)

Section Triggers.
Context {Resource : Type}.

(** The function number [f] is in the [Init] field of [k] and has not been
    called. *)
Definition armed (k : resource_kind) (f : nat) (s : root Resource) : Prop :=
  init (resource k s) = Some f /\ onces s !! f = Some (OnceFn k false).

(** No fetch of [k] is in flight. *)
Definition quiet (k : resource_kind) (s : root Resource) : Prop :=
  forall n, fetches s !! n <> Some (k, InFlight).

(** The events that call the function [f] or read the getter of [k], and the
    fetches coming back. *)
Definition about (k : resource_kind) (f : nat) (e : event Resource) : Prop :=
  match e with
  | CallTrigger f' => f' = f
  | ReadGetter k' => k' = k
  | FetchSettles _ _ _ => True
  | DispatchInit | Transaction _ => False
  end.

(** One for a fetch that came back with the resource. *)
Definition came_back (st : fetch_status Resource) : nat :=
  match st with
  | Settled (Returns _) => 1
  | _ => 0
  end.

End Triggers.

(** A root module with a mnemonic and an identity id, after [init]; the
    function 0 is in [accountInit]. *)
Definition armed_root : root string :=
  step DispatchInit (registered (JStr "mnemonic words") (JStr "identity id")).

(** Reads of the account getter and calls of its function, around the fetch
    coming back with [res]. *)
Definition reads_and_calls (res : response string) : list (event string) :=
  [ReadGetter Account; CallTrigger 0; FetchSettles 0 res 1000%Z;
   ReadGetter Account; CallTrigger 0].

(** How far the function [f] of [k] has come since the state [s0]: not
    called; called, its fetch in flight; its fetch settled with [res]. *)
Inductive phase (Resource : Type) : Type :=
| Waiting
| Flying
| Landed (res : response Resource).

Arguments Waiting {Resource}.
Arguments Flying {Resource}.
Arguments Landed {Resource} res.

Definition trigger_inv {Resource} (k : resource_kind) (f : nat)
    (s0 s : root Resource) (p : phase Resource) : Prop :=
  let n0 := length (fetches s0) in
  match p with
  | Waiting =>
      resource k s = resource k s0
      /\ identityId s = identityId s0
      /\ onces s !! f = Some (OnceFn k false)
      /\ length (fetches s) = n0
      /\ quiet k s
      /\ fetch_calls k s = fetch_calls k s0
      /\ synced_stamps k s = synced_stamps k s0
  | Flying =>
      init (resource k s) = Some f
      /\ onces s !! f = Some (OnceFn k true)
      /\ length (fetches s) = S n0
      /\ fetches s !! n0 = Some (k, InFlight)
      /\ (forall n, n <> n0 -> fetches s !! n <> Some (k, InFlight))
      /\ fetch_calls k s = fetch_calls k s0 + 1
      /\ synced_stamps k s = synced_stamps k s0
  | Landed res =>
      (init (resource k s) = Some f \/ init (resource k s) = None)
      /\ onces s !! f = Some (OnceFn k true)
      /\ length (fetches s) = S n0
      /\ fetches s !! n0 = Some (k, Settled res)
      /\ quiet k s
      /\ fetch_calls k s = fetch_calls k s0 + 1
      /\ synced_stamps k s = synced_stamps k s0 + came_back (Settled res)
  end.

(** Nothing of [k] differs between two states. *)
Definition same_for {Resource} (k : resource_kind) (s s' : root Resource) : Prop :=
  resource k s' = resource k s
  /\ identityId s' = identityId s
  /\ onces s' = onces s
  /\ length (fetches s') = length (fetches s)
  /\ (forall m st, fetches s' !! m = Some (k, st) <-> fetches s !! m = Some (k, st))
  /\ fetch_calls k s' = fetch_calls k s
  /\ synced_stamps k s' = synced_stamps k s.

(** ** Further parts of the plugin *)

(** *** The getters of a document module *)

Section DocumentGetters.
Context `{Platform}.

(** [getters.all]. *)
Definition getters_all (s : store) : gmap string Snapshot := documents s.

(** [getters.one]: [state.documents?.[id]]. *)
Definition getters_one (s : store) (id : string) : option Snapshot :=
  documents s !! id.

(** A remote that, from a state in [good], accepts every batch and stays in
    [good]. *)
Definition accepts (good : Remote -> Prop) : Prop :=
  forall r batch,
    good r ->
    exists r', documents_broadcast r batch = (r', Returns tt) /\ good r'.

End DocumentGetters.

(** *** Further scenario values *)

(** A store whose remote holds the records A and B and whose mirror holds a
    stale snapshot Z. *)
Definition stale_store : @store stub_platform :=
  Store (StubRemote scenario_collection [])
    {["Z" := StubDocument "Z" [] 1]} [] [].

(** *** The option a resource is fetched with *)

Section Credentials.
Context {Resource : Type}.

(** [getters.options.mnemonic] for the account, [getters.options.identityId]
    for the identity: what [init] tests before it arms the trigger. *)
Definition credential (k : resource_kind) (s : root Resource) : jsval :=
  match k with
  | Account => mnemonic s
  | Identity => identityId s
  end.

(** Nothing in the state can lead to a fetch of [k]: its option is falsy, no
    function made by [once] dispatches its action, no fetch of it was issued,
    and its fields [k] and [k]Init are [null]. *)
Definition unarmed (k : resource_kind) (s : root Resource) : Prop :=
  truthy (credential k s) = false
  /\ Forall (fun o => target o <> k) (onces s)
  /\ Forall (fun f => fst f <> k) (fetches s)
  /\ value (resource k s) = None
  /\ init (resource k s) = None.

End Credentials.

(** An options object with an identity ID and no mnemonic; what then
    happens to the module. *)
Definition without_mnemonic : list (event unit) :=
  [DispatchInit; ReadGetter Account; ReadGetter Identity; CallTrigger 0;
   FetchSettles 0 (Returns tt) 5; Transaction 7; ReadGetter Account].

(** A state in which a fetch of the account is in flight. *)
Definition account_in_flight : root unit :=
  run [DispatchInit; ReadGetter Account] (registered (JStr "words") JNull).

(** *** The options *)

(** [{ ...a, ...b }]: the properties of [a], then those of [b] assigned over
    them.  The list is in the order of assignment, which is the order of
    enumeration for keys that are not array indices; what is stated below
    is about lookups only. *)
Definition spread {V} (a b : obj V) : obj V :=
  fold_left (fun o entry => obj_set (fst entry) (snd entry) o) b a.

(** [defaultOptions]; the arrays and the object are kept as their JSON. *)
Definition defaultOptions : obj jsval :=
  [("namespace", JStr "dash");
   ("documents", JNested "[]");
   ("network", JStr "livenet");
   ("contractId", JNull);
   ("identityId", JNull);
   ("mnemonic", JNull);
   ("allQuery", JNested "{}");
   ("subscribeToFrom", JNested "[[],[]]")].

(** [pluginOptions = { ...defaultOptions, ...config }]. *)
Definition pluginOptions (config : obj jsval) : obj jsval :=
  spread defaultOptions config.

(** [mutations.updateOptions]: the new [state.options]. *)
Definition updateOptions (options payload : obj jsval) : obj jsval :=
  spread options payload.

(** lodash [reduce(array, iteratee, accumulator)]: the iteratee is given the
    accumulator, the element and its index. *)
Fixpoint reduce_from {A B} (iteratee : B -> A -> nat -> B) (array : list A)
    (index : nat) (accumulator : B) : B :=
  match array with
  | [] => accumulator
  | value :: rest =>
      reduce_from iteratee rest (S index) (iteratee accumulator value index)
  end.

Definition reduce {A B} (iteratee : B -> A -> nat -> B) (array : list A)
    (accumulator : B) : B :=
  reduce_from iteratee array 0 accumulator.

(** The property key an array index becomes: its decimal numeral. *)
Definition index_key (index : nat) : string := pretty index.

(** [updatedOptions] in the subscription to the root store, [subscriptions]
    being an array of field names and [combined] the object
    [{ ...state, ...store.getters }]. *)
Definition updatedOptions (subscriptions : list string) (combined : obj jsval)
  : obj jsval :=
  reduce (fun result value key => obj_set (index_key key) (prop value combined) result)
         subscriptions [].

Definition is_digit (c : Ascii.ascii) : bool :=
  (48 <=? Ascii.nat_of_ascii c) && (Ascii.nat_of_ascii c <=? 57).

(** Whether a key begins with a decimal digit. *)
Definition leading_digit (k : string) : bool :=
  match k with
  | String c _ => is_digit c
  | EmptyString => false
  end.

(** The option [init] tests for a resource, by name. *)
Definition option_name (k : resource_kind) : string :=
  match k with
  | Account => "mnemonic"
  | Identity => "identityId"
  end.

(** The state the root module is registered with when the plugin is
    installed with [config]. *)
Definition installed {Resource : Type} (config : obj jsval) : root Resource :=
  registered (prop "mnemonic" (pluginOptions config))
             (prop "identityId" (pluginOptions config)).

(** A config that names a contract and an identity, and no mnemonic. *)
Definition config_without_mnemonic : obj jsval :=
  [("contractId", JStr "c"); ("identityId", JStr "id")].
(** ** Facts about objects *)

Lemma obj_get_middle {V} (k : string) (v : V) (pre post : obj V) :
  k ∉ keys pre -> obj_get k (pre ++ (k, v) :: post) = Some v.
Proof.
  induction pre as [|[k' v'] pre IH]; simpl; intros Hk.
  - by rewrite String.eqb_refl.
  - destruct (String.eqb_spec k k') as [->|Hne].
    + exfalso. apply Hk. left.
    + apply IH. intros Hin. apply Hk. by right.
Qed.

Lemma obj_set_middle {V} (k : string) (v w : V) (pre post : obj V) :
  k ∉ keys pre -> obj_set k w (pre ++ (k, v) :: post) = pre ++ (k, w) :: post.
Proof.
  induction pre as [|[k' v'] pre IH]; simpl; intros Hk.
  - by rewrite String.eqb_refl.
  - destruct (String.eqb_spec k k') as [->|Hne].
    + exfalso. apply Hk. left.
    + f_equal. apply IH. intros Hin. apply Hk. by right.
Qed.

Lemma obj_set_fresh {V} (k : string) (v : V) (o : obj V) :
  k ∉ keys o -> obj_set k v o = o ++ [(k, v)].
Proof.
  induction o as [|[k' v'] o IH]; simpl; intros Hk; [done|].
  destruct (String.eqb_spec k k') as [->|Hne].
  - exfalso. apply Hk. left.
  - f_equal. apply IH. intros Hin. apply Hk. by right.
Qed.

Lemma zipObject_fold {V} (props : list string) (values : list V) (acc : obj V) :
  NoDup props -> (forall k, k ∈ props -> k ∉ keys acc) ->
  length values = length props ->
  fold_left (fun o kv => obj_set (fst kv) (snd kv) o) (combine props values) acc
  = acc ++ combine props values.
Proof.
  revert values acc.
  induction props as [|k props IH]; intros [|v values] acc Hnd Hfresh Hlen;
    simpl in *; try lia; [by rewrite app_nil_r|].
  apply NoDup_cons in Hnd as [Hk Hnd].
  rewrite obj_set_fresh by (apply Hfresh; left).
  rewrite IH; [by rewrite <- app_assoc | done | | lia].
  intros k' Hk'. unfold keys. rewrite map_app. simpl.
  rewrite elem_of_app, list_elem_of_singleton.
  intros [Hin| ->]; [|done].
  by apply (Hfresh k'); [right|].
Qed.

Lemma combine_keys_stub {A V} (o : obj V) (start : nat) :
  combine (keys o) (map (@stubArray A) (seq start (length o))) = blank o.
Proof.
  revert start. induction o as [|[k v] o IH]; intros start; simpl; [done|].
  f_equal. apply IH.
Qed.

Lemma zipObject_blank {A V} (o : obj V) :
  NoDup (keys o) ->
  zipObject (keys o) (times (length (keys o)) (@stubArray A)) = blank o.
Proof.
  intros Hnd. unfold zipObject, times.
  rewrite zipObject_fold; simpl.
  - unfold keys at 2. rewrite length_map. apply combine_keys_stub.
  - done.
  - intros k _. apply not_elem_of_nil.
  - by rewrite length_map, length_seq.
Qed.

(** ** The regulator splits the visit order at one place *)

Lemma within_budgets_true bytes count :
  within_budgets bytes count = true <->
  (bytes < 4096)%N /\ count <= 10.
Proof.
  unfold within_budgets, MAX_KILOBYTES_PER_PAYLOAD, MAX_DOCUMENTS_PER_PAYLOAD.
  rewrite andb_true_iff, N.ltb_lt, Nat.leb_le. lia.
Qed.

Lemma within_budgets_false bytes count :
  within_budgets bytes count = false <->
  (4096 <= bytes)%N \/ 10 < count.
Proof.
  rewrite <- not_true_iff_false, within_budgets_true. lia.
Qed.

Ltac budgets :=
  unfold exhausted, MAX_KILOBYTES_PER_PAYLOAD, MAX_DOCUMENTS_PER_PAYLOAD in *;
  repeat match goal with
    | H : within_budgets _ _ = true |- _ => apply within_budgets_true in H
    | H : within_budgets _ _ = false |- _ => apply within_budgets_false in H
    | |- within_budgets _ _ = true => apply within_budgets_true
    | |- within_budgets _ _ = false => apply within_budgets_false
    end.

Section RegulatorFacts.
Context {Item : Type}.
Variable encoded_length : Item -> N.

Lemma cut_from_exhausted bytes count (items : list Item) :
  exhausted bytes count -> cut_from encoded_length bytes count items = 0.
Proof.
  destruct items as [|item rest]; simpl; [done|]. intros Hex.
  destruct (within_budgets _ _) eqn:Hfit; [|done]. budgets. lia.
Qed.

Lemma total_bytes_app (xs ys : list Item) :
  total_bytes encoded_length (xs ++ ys)
  = (total_bytes encoded_length xs + total_bytes encoded_length ys)%N.
Proof. induction xs as [|x xs IH]; simpl; [done|]. rewrite IH. lia. Qed.

Lemma cut_from_le bytes count (items : list Item) :
  cut_from encoded_length bytes count items <= length items.
Proof.
  revert bytes count. induction items as [|item rest IH]; intros; simpl; [done|].
  destruct (within_budgets _ _); [|lia].
  specialize (IH (bytes + encoded_length item)%N (S count)). lia.
Qed.

Lemma cut_from_short bytes count (items : list Item) :
  cut_from encoded_length bytes count items < length items ->
  exhausted (bytes + total_bytes encoded_length items) (count + length items).
Proof.
  revert bytes count.
  induction items as [|item rest IH]; intros bytes count; simpl; [lia|].
  destruct (within_budgets _ _) eqn:Hfit; intros Hlt.
  - apply Nat.succ_lt_mono in Hlt. apply IH in Hlt. budgets. lia.
  - budgets. lia.
Qed.

Lemma cut_from_app bytes count (xs ys : list Item) :
  cut_from encoded_length bytes count (xs ++ ys) =
    if decide (cut_from encoded_length bytes count xs = length xs)
    then length xs
         + cut_from encoded_length (bytes + total_bytes encoded_length xs)
             (count + length xs) ys
    else cut_from encoded_length bytes count xs.
Proof.
  revert bytes count. induction xs as [|x xs IH]; intros bytes count; simpl.
  - rewrite N.add_0_r, Nat.add_0_r. done.
  - destruct (within_budgets _ _); [|done]. rewrite IH.
    replace (bytes + (encoded_length x + total_bytes encoded_length xs))%N
      with (bytes + encoded_length x + total_bytes encoded_length xs)%N by lia.
    replace (count + S (length xs)) with (S count + length xs) by lia.
    repeat case_decide; lia.
Qed.

(** The [n]-th item is cut into the first part exactly when the counters,
    after it, are within both budgets. *)
Lemma cut_from_spec bytes count (items : list Item) n :
  n < length items ->
  n < cut_from encoded_length bytes count items <->
    within_budgets (bytes + total_bytes encoded_length (take (S n) items))
      (count + S n) = true.
Proof.
  revert bytes count n.
  induction items as [|item rest IH]; intros bytes count n Hn; simpl in *; [lia|].
  destruct (within_budgets (bytes + encoded_length item) (S count)) eqn:Hfit.
  - destruct n as [|n].
    + rewrite take_0. simpl. split; [intros _|lia]. budgets. lia.
    + rewrite <- Nat.succ_lt_mono. rewrite IH by lia.
      replace (bytes + (encoded_length item
                        + total_bytes encoded_length (take (S n) rest)))%N
        with (bytes + encoded_length item
              + total_bytes encoded_length (take (S n) rest))%N by lia.
      replace (count + S (S n)) with (S count + S n) by lia. done.
  - split; [lia|]. intros Hfit'. budgets. lia.
Qed.

(** The inner [each], on the entry of [key] in both objects. *)
Lemma fold_visit key (items : list Item) :
  forall pre_i acc_i post_i pre_r acc_r post_r bytes count,
  key ∉ keys pre_i -> key ∉ keys pre_r ->
  fold_left (visit encoded_length key) items
    (Regulation (pre_i ++ (key, acc_i) :: post_i)
                (pre_r ++ (key, acc_r) :: post_r) bytes count)
  = Regulation
      (pre_i ++ (key, acc_i ++ take (cut_from encoded_length bytes count items) items)
             :: post_i)
      (pre_r ++ (key, acc_r ++ drop (cut_from encoded_length bytes count items) items)
             :: post_r)
      (bytes + total_bytes encoded_length items) (count + length items).
Proof.
  induction items as [|item rest IH];
    intros pre_i acc_i post_i pre_r acc_r post_r bytes count Hi Hr; simpl.
  - by rewrite !app_nil_r, N.add_0_r, Nat.add_0_r.
  - unfold visit at 2. simpl.
    replace (count + 1) with (S count) by lia.
    unfold obj_append. rewrite !obj_get_middle, !obj_set_middle by done. simpl.
    destruct (within_budgets _ _) eqn:Hfit.
    + rewrite IH by done. rewrite <- !app_assoc. simpl.
      by rewrite N.add_assoc, Nat.add_succ_r.
    + rewrite IH by done.
      rewrite cut_from_exhausted by (budgets; lia).
      rewrite ?take_0, ?drop_0, ?app_nil_r, <- ?app_assoc; simpl.
      by rewrite N.add_assoc, Nat.add_succ_r.
Qed.

(** The outer [each], on the entries not yet visited. *)
Lemma fold_visit_key (todo : obj (list Item)) :
  forall pre_i pre_r bytes count,
  NoDup (keys todo) ->
  (forall k, k ∈ keys todo -> (k ∉ keys pre_i) /\ (k ∉ keys pre_r)) ->
  fold_left (visit_key encoded_length) todo
    (Regulation (pre_i ++ blank todo) (pre_r ++ blank todo) bytes count)
  = Regulation
      (pre_i ++ take_entries (cut_from encoded_length bytes count (visit_order todo)) todo)
      (pre_r ++ drop_entries (cut_from encoded_length bytes count (visit_order todo)) todo)
      (bytes + total_bytes encoded_length (visit_order todo))
      (count + length (visit_order todo)).
Proof.
  induction todo as [|[k items] rest IH]; intros pre_i pre_r bytes count Hnd Hfresh.
  - simpl. by rewrite N.add_0_r, Nat.add_0_r.
  - simpl in Hnd. apply NoDup_cons in Hnd as [Hk Hnd].
    destruct (Hfresh k) as [Hki Hkr]; [left|].
    cbn [fold_left blank map fst]. unfold visit_key at 2.
    cbn [fst snd]. rewrite fold_visit by done. cbn [app].
    rewrite (cons_middle _ pre_i), (cons_middle _ pre_r), !app_assoc.
    rewrite IH; [|done|].
    2: { intros k' Hk'. unfold keys. rewrite !map_app. simpl.
         rewrite !elem_of_app, !list_elem_of_singleton.
         destruct (Hfresh k') as [? ?]; [by right|].
         split; intros [?| ->]; done. }
    unfold visit_order. cbn [map snd concat]. fold (visit_order rest).
    rewrite cut_from_app, total_bytes_app, length_app.
    rewrite <- !app_assoc. cbn [app take_entries drop_entries].
    pose proof (cut_from_le bytes count items) as Hle.
    case_decide as Hfull.
    + rewrite Hfull.
      replace (length items + _ - length items)
        with (cut_from encoded_length (bytes + total_bytes encoded_length items)
                (count + length items) (visit_order rest)) by lia.
      rewrite take_ge, drop_ge by lia.
      rewrite (take_ge items), (drop_ge items) by lia.
      f_equal; lia.
    + rewrite (cut_from_exhausted (bytes + total_bytes encoded_length items))
        by (apply cut_from_short; lia).
      replace (cut_from encoded_length bytes count items - length items) with 0 by lia.
      f_equal; lia.
Qed.

(** [regulatePayload] gives each key the items before the cut and the items
    from the cut on. *)
Lemma regulate_split (payload : obj (list Item)) :
  NoDup (keys payload) ->
  regulate encoded_length payload =
    Regulation (take_entries (cut encoded_length payload) payload)
               (drop_entries (cut encoded_length payload) payload)
               (total_bytes encoded_length (visit_order payload))
               (length (visit_order payload)).
Proof.
  intros Hnd. unfold regulate.
  rewrite zipObject_blank by done.
  rewrite <- (app_nil_l (blank payload)).
  rewrite fold_visit_key; [done|done|].
  intros k _. split; apply not_elem_of_nil.
Qed.

End RegulatorFacts.

(** ** Consequences of the split *)

Section SplitFacts.
Context {Item : Type}.

Lemma keys_take_entries c (payload : obj (list Item)) :
  keys (take_entries c payload) = keys payload.
Proof.
  revert c. induction payload as [|[k items] rest IH]; intros c; simpl; [done|].
  f_equal. apply IH.
Qed.

Lemma keys_drop_entries c (payload : obj (list Item)) :
  keys (drop_entries c payload) = keys payload.
Proof.
  revert c. induction payload as [|[k items] rest IH]; intros c; simpl; [done|].
  f_equal. apply IH.
Qed.

Lemma visit_order_take_entries c (payload : obj (list Item)) :
  visit_order (take_entries c payload) = take c (visit_order payload).
Proof.
  unfold visit_order. revert c.
  induction payload as [|[k items] rest IH]; intros c; simpl; [by destruct c|].
  by rewrite IH, take_app.
Qed.

Lemma visit_order_drop_entries c (payload : obj (list Item)) :
  visit_order (drop_entries c payload) = drop c (visit_order payload).
Proof.
  unfold visit_order. revert c.
  induction payload as [|[k items] rest IH]; intros c; simpl; [by destruct c|].
  by rewrite IH, drop_app.
Qed.

Lemma take_entries_0 (payload : obj (list Item)) :
  take_entries 0 payload = blank payload.
Proof.
  induction payload as [|[k items] rest IH]; simpl; [done|].
  by rewrite Nat.sub_0_l, take_0, IH.
Qed.

Lemma drop_entries_0 (payload : obj (list Item)) :
  drop_entries 0 payload = payload.
Proof.
  induction payload as [|[k items] rest IH]; simpl; [done|].
  by rewrite Nat.sub_0_l, drop_0, IH.
Qed.

(** Under every key the two parts, one after the other, are the items. *)
Lemma take_drop_entries c (payload : obj (list Item)) key items :
  obj_get key payload = Some items ->
  exists inc rem,
    obj_get key (take_entries c payload) = Some inc
    /\ obj_get key (drop_entries c payload) = Some rem
    /\ inc ++ rem = items.
Proof.
  revert c. induction payload as [|[k its] rest IH]; intros c; simpl; [done|].
  destruct (String.eqb key k).
  - intros [= <-]. exists (take c its), (drop c its).
    by rewrite take_drop.
  - apply IH.
Qed.

End SplitFacts.

Section Completeness.
Context {Item : Type}.
Variable encoded_length : Item -> N.

Lemma total_bytes_take_le (items : list Item) n m :
  n <= m ->
  (total_bytes encoded_length (take n items)
   <= total_bytes encoded_length (take m items))%N.
Proof.
  intros Hnm.
  rewrite <- (take_drop n (take m items)), total_bytes_app.
  rewrite take_take. replace (n `min` m) with n by lia. lia.
Qed.

Lemma passes_spec (items : list Item) n :
  passes encoded_length items n = true <->
  (total_bytes encoded_length (take (S n) items) < 4096)%N /\ S n <= 10.
Proof. unfold passes. apply within_budgets_true. Qed.

Lemma passes_antitone (items : list Item) n m :
  n <= m ->
  passes encoded_length items n = false -> passes encoded_length items m = false.
Proof.
  intros Hnm. rewrite <- !not_true_iff_false, !passes_spec.
  pose proof (total_bytes_take_le items (S n) (S m)). lia.
Qed.

Lemma cut_spec (payload : obj (list Item)) n :
  n < length (visit_order payload) ->
  n < cut encoded_length payload <->
  passes encoded_length (visit_order payload) n = true.
Proof.
  intros Hn. unfold cut, passes. rewrite cut_from_spec by done.
  by rewrite N.add_0_l, Nat.add_0_l.
Qed.

(** C2.  For every payload and every key of it, [included[key]] followed by
    [remainder[key]] is [payload[key]]: the order of the items is kept in
    both outputs and no item is duplicated or dropped. *)
Theorem regulatePayload_complete (payload : obj (list Item)) :
  NoDup (keys payload) ->
  keys (fst (regulatePayload encoded_length payload)) = keys payload
  /\ keys (snd (regulatePayload encoded_length payload)) = keys payload
  /\ forall key items,
       obj_get key payload = Some items ->
       exists inc rem,
         obj_get key (fst (regulatePayload encoded_length payload)) = Some inc
         /\ obj_get key (snd (regulatePayload encoded_length payload)) = Some rem
         /\ inc ++ rem = items.
Proof.
  intros Hnd. unfold regulatePayload. rewrite regulate_split by done. simpl.
  split; [apply keys_take_entries|]. split; [apply keys_drop_entries|].
  intros key items Hget. by apply take_drop_entries.
Qed.

(** C3.  The two counters run over all keys and are never reset: at the end
    they hold the bytes and the number of all items visited.  There is one
    place [c] in the visit order such that [included] holds, key by key, the
    items visited before [c] and [remainder] those from [c] on; the [n]-th
    visited item is before [c] exactly when, with its size added and the
    count incremented, the size is below 4 KB and the count at most 10; and
    once an item fails that test every later one fails it. *)
Theorem regulatePayload_global_split (payload : obj (list Item)) :
  NoDup (keys payload) ->
  let st := regulate encoded_length payload in
  let items := visit_order payload in
  size_bytes st = total_bytes encoded_length items
  /\ limit st = length items
  /\ exists c,
       included st = take_entries c payload
       /\ remainder st = drop_entries c payload
       /\ visit_order (included st) = take c items
       /\ visit_order (remainder st) = drop c items
       /\ (forall n, n < length items ->
             (n < c <->
              (total_bytes encoded_length (take (S n) items)
               < MAX_KILOBYTES_PER_PAYLOAD * 1024)%N
              /\ S n <= MAX_DOCUMENTS_PER_PAYLOAD))
       /\ (forall n m, n <= m ->
             ~ ((total_bytes encoded_length (take (S n) items)
                 < MAX_KILOBYTES_PER_PAYLOAD * 1024)%N
                /\ S n <= MAX_DOCUMENTS_PER_PAYLOAD) ->
             ~ ((total_bytes encoded_length (take (S m) items)
                 < MAX_KILOBYTES_PER_PAYLOAD * 1024)%N
                /\ S m <= MAX_DOCUMENTS_PER_PAYLOAD)).
Proof.
  intros Hnd st items. subst st items. rewrite regulate_split by done. simpl.
  split; [done|]. split; [done|].
  exists (cut encoded_length payload).
  split; [done|]. split; [done|].
  split; [apply visit_order_take_entries|].
  split; [apply visit_order_drop_entries|].
  split.
  - intros n Hn. rewrite cut_spec by done. apply passes_spec.
  - intros n m Hnm.
    change (MAX_KILOBYTES_PER_PAYLOAD * 1024)%N with 4096%N.
    change MAX_DOCUMENTS_PER_PAYLOAD with 10.
    rewrite <- !passes_spec, !not_true_iff_false. by apply passes_antitone.
Qed.

(** When the first item visited has 4 KB or more, nothing is included. *)
Lemma regulatePayload_oversized_head (payload : obj (list Item)) first :
  NoDup (keys payload) ->
  head (visit_order payload) = Some first ->
  (MAX_KILOBYTES_PER_PAYLOAD * 1024 <= encoded_length first)%N ->
  regulatePayload encoded_length payload = (blank payload, payload).
Proof.
  intros Hnd Hhead Hbig. unfold regulatePayload. rewrite regulate_split by done.
  simpl. unfold cut. destruct (visit_order payload) as [|x rest]; [done|].
  injection Hhead as ->. simpl.
  destruct (within_budgets _ _) eqn:Hfit.
  - budgets. lia.
  - by rewrite take_entries_0, drop_entries_0.
Qed.

End Completeness.

Lemma regulatePayload_complete_witness :
  NoDup (keys sample_payload)
  /\ forall key items,
       obj_get key sample_payload = Some items ->
       exists inc rem,
         obj_get key (fst (regulatePayload (fun n => n) sample_payload)) = Some inc
         /\ obj_get key (snd (regulatePayload (fun n => n) sample_payload)) = Some rem
         /\ inc ++ rem = items.
Proof.
  assert (Hnd : NoDup (keys sample_payload))
    by (apply (bool_decide_unpack _); by vm_compute).
  split; [done|].
  apply (regulatePayload_complete (fun n => n) sample_payload Hnd).
Defined.

Lemma regulatePayload_global_split_witness :
  NoDup (keys sample_payload)
  /\ size_bytes (regulate (fun n => n) sample_payload) = 4510%N
  /\ limit (regulate (fun n => n) sample_payload) = 4
  /\ exists c,
       included (regulate (fun n => n) sample_payload) = take_entries c sample_payload
       /\ remainder (regulate (fun n => n) sample_payload) = drop_entries c sample_payload.
Proof.
  assert (Hnd : NoDup (keys sample_payload))
    by (apply (bool_decide_unpack _); by vm_compute).
  split; [done|].
  destruct (regulatePayload_global_split (fun n => n) sample_payload Hnd)
    as (Hsize & Hlimit & c & Hinc & Hrem & _).
  split; [exact Hsize|]. split; [exact Hlimit|]. by exists c.
Defined.

(** ** Operation sets *)

Lemma any_nonempty_false {A} (o : obj (list A)) :
  any_nonempty o = false -> visit_order o = [].
Proof.
  unfold any_nonempty, visit_order.
  induction o as [|[k items] rest IH]; simpl; [done|].
  rewrite orb_false_iff. intros [Hk Hrest].
  destruct items; [|done]. simpl. by apply IH.
Qed.

Lemma operation_set_NoDup {A} (o : obj (list A)) :
  OperationSet o -> NoDup (keys o).
Proof.
  unfold OperationSet. intros ->.
  apply (bool_decide_unpack _). by vm_compute.
Qed.

(** The three arrays of an operation set, whatever the order of its keys. *)
Lemma operation_set_arrays {A} (o : obj (list A)) :
  OperationSet o ->
  exists created replaced deleted,
    obj_get "create" o = Some created
    /\ obj_get "replace" o = Some replaced
    /\ obj_get "delete" o = Some deleted
    /\ any_nonempty o
       = (0 <? length created) || (0 <? length replaced) || (0 <? length deleted).
Proof.
  intros Hop. pose proof (operation_set_NoDup o Hop) as Hnd.
  unfold OperationSet in Hop.
  pose proof (Permutation_length Hop) as Hlen.
  destruct o as [|[k1 v1] [|[k2 v2] [|[k3 v3] [|? ?]]]]; try done.
  assert (Hin : forall k, k ∈ [k1; k2; k3] -> k ∈ ["create"; "replace"; "delete"]).
  { intros k Hk. simpl in Hop. by rewrite <- Hop. }
  assert (H1 : k1 ∈ ["create"; "replace"; "delete"])
    by (apply Hin; rewrite !elem_of_cons; auto).
  assert (H2 : k2 ∈ ["create"; "replace"; "delete"])
    by (apply Hin; rewrite !elem_of_cons; auto).
  assert (H3 : k3 ∈ ["create"; "replace"; "delete"])
    by (apply Hin; rewrite !elem_of_cons; auto).
  rewrite !elem_of_cons, elem_of_nil in H1, H2, H3.
  simpl in Hnd. clear Hin Hop Hlen.
  destruct H1 as [->|[->|[->|[]]]];
    destruct H2 as [->|[->|[->|[]]]];
    destruct H3 as [->|[->|[->|[]]]];
    try (exfalso; apply (bool_decide_pack _) in Hnd; by vm_compute in Hnd);
    simpl; eexists _, _, _; repeat split;
    unfold any_nonempty; simpl;
    destruct (0 <? length v1), (0 <? length v2), (0 <? length v3); done.
Qed.

(** ** The broadcaster *)

Section BroadcastFacts.
Context `{Platform}.

Lemma any_length_operation_set (o : obj (list item)) (s : store) :
  OperationSet o -> any_length o s = (s, Resolved (any_nonempty o)).
Proof.
  intros Hop.
  destruct (operation_set_arrays o Hop) as (c & r & d & Hc & Hr & Hd & ->).
  unfold any_length, array_length, bind, ret. rewrite Hc, Hr, Hd.
  destruct (0 <? length c); [done|].
  destruct (0 <? length r); done.
Qed.

Lemma regulatePayload_operation_set (payload : obj (list item)) :
  OperationSet payload ->
  OperationSet (fst (regulatePayload item_length payload))
  /\ OperationSet (snd (regulatePayload item_length payload)).
Proof.
  intros Hop. pose proof (operation_set_NoDup _ Hop) as Hnd.
  unfold regulatePayload. rewrite regulate_split by done. simpl.
  unfold OperationSet in *. by rewrite keys_take_entries, keys_drop_entries.
Qed.

(** One dispatch of [broadcast] on an operation set. *)
Lemma broadcast_step (payload : obj (list item)) fuel s :
  OperationSet payload ->
  broadcast (S fuel) payload s =
    let included := fst (regulatePayload item_length payload) in
    let remainder := snd (regulatePayload item_length payload) in
    if any_nonempty included then
      match documents_broadcast (remote s) included with
      | (r, Returns _) =>
          let s' := Store r (documents s) (calls s ++ [Broadcast included])
                      (console s) in
          if any_nonempty remainder then broadcast fuel remainder s'
          else (s', Resolved true)
      | (r, Throws e) =>
          (Store r (documents s) (calls s ++ [Broadcast included])
             (console s ++ [e]),
           Resolved false)
      end
    else if any_nonempty remainder then broadcast fuel remainder s
    else (s, Resolved true).
Proof.
  intros Hop.
  destruct (regulatePayload_operation_set payload Hop) as [Hi Hr].
  cbn [broadcast]. unfold broadcast_try.
  destruct (regulatePayload item_length payload) as [included remainder].
  cbn [fst snd] in *. unfold bind, try_catch, ret, console_debug.
  rewrite any_length_operation_set by done.
  destruct (any_nonempty included).
  - unfold client_call.
    destruct (documents_broadcast (remote s) included) as [r [[]|e]]; simpl.
    + rewrite any_length_operation_set by done.
      destruct (any_nonempty remainder); done.
    + done.
  - rewrite any_length_operation_set by done.
    destruct (any_nonempty remainder); done.
Qed.

(** [broadcast] submits the batches as they are cut, up to the first one
    that throws. *)
Lemma broadcast_cuts fuel :
  forall (payload : obj (list item)) batches s,
  OperationSet payload ->
  cuts fuel payload = Some batches ->
  broadcast fuel payload s = submit_all batches s.
Proof.
  induction fuel as [|fuel IH]; intros payload batches s Hop Hcuts; [done|].
  rewrite broadcast_step by done.
  destruct (regulatePayload_operation_set payload Hop) as [Hi Hr].
  cbn [cuts] in Hcuts.
  destruct (regulatePayload item_length payload) as [included remainder].
  cbn [fst snd] in *.
  destruct (any_nonempty included); destruct (any_nonempty remainder).
  - destruct (cuts fuel remainder) as [rest|] eqn:Hrest; [|done].
    injection Hcuts as <-. cbn [app submit_all].
    unfold bind, try_catch, client_call, ret, console_debug.
    destruct (documents_broadcast (remote s) included) as [r [[]|e]]; simpl.
    + by apply IH.
    + done.
  - injection Hcuts as <-. cbn [submit_all].
    unfold bind, try_catch, client_call, ret, console_debug.
    by destruct (documents_broadcast (remote s) included) as [r [[]|e]].
  - destruct (cuts fuel remainder) as [rest|] eqn:Hrest; [|done].
    injection Hcuts as <-. by apply IH.
  - by injection Hcuts as <-.
Qed.

(** The batches are cut from the visit order, one after the other, and none
    of them is empty. *)
Lemma cuts_in_order fuel :
  forall (payload : obj (list item)) batches,
  NoDup (keys payload) ->
  cuts fuel payload = Some batches ->
  concat (map visit_order batches) = visit_order payload
  /\ Forall (fun batch => any_nonempty batch = true) batches.
Proof.
  induction fuel as [|fuel IH]; intros payload batches Hnd Hcuts; [done|].
  cbn [cuts] in Hcuts. unfold regulatePayload in Hcuts.
  rewrite regulate_split in Hcuts by done. cbn [included remainder] in Hcuts.
  set (c := cut item_length payload) in *.
  assert (Hall : visit_order (take_entries c payload)
                 ++ visit_order (drop_entries c payload) = visit_order payload)
    by (by rewrite visit_order_take_entries, visit_order_drop_entries, take_drop).
  destruct (any_nonempty (take_entries c payload)) eqn:Hinc;
    destruct (any_nonempty (drop_entries c payload)) eqn:Hrem.
  - destruct (cuts fuel _) as [rest|] eqn:Hrest; [|done].
    injection Hcuts as <-.
    apply IH in Hrest as [Hrest Hne]; [|by rewrite keys_drop_entries].
    split; [|by constructor]. simpl. by rewrite Hrest.
  - injection Hcuts as <-. apply any_nonempty_false in Hrem.
    split; [|by repeat constructor]. simpl. by rewrite <- Hall, Hrem.
  - destruct (cuts fuel _) as [rest|] eqn:Hrest; [|done].
    injection Hcuts as <-.
    apply IH in Hrest as [Hrest Hne]; [|by rewrite keys_drop_entries].
    apply any_nonempty_false in Hinc.
    split; [|done]. simpl. by rewrite Hrest, <- Hall, Hinc.
  - injection Hcuts as <-.
    apply any_nonempty_false in Hinc. apply any_nonempty_false in Hrem.
    split; [|done]. simpl. by rewrite <- Hall, Hinc, Hrem.
Qed.

Lemma any_nonempty_true {A} (o : obj (list A)) :
  any_nonempty o = true <-> visit_order o <> [].
Proof.
  split.
  - intros Hne Hnil. unfold any_nonempty, visit_order in *.
    induction o as [|[k items] rest IH]; simpl in *; [done|].
    apply app_eq_nil in Hnil as [-> Hnil]. simpl in Hne. by apply IH.
  - intros Hne. destruct (any_nonempty o) eqn:E; [done|].
    by apply any_nonempty_false in E.
Qed.

(** When no item has 4 KB or more every round includes an item, and as many
    rounds as there are items, and one more, exhaust the payload. *)
Lemma cuts_terminates fuel :
  forall (payload : obj (list item)),
  NoDup (keys payload) ->
  Forall (fun i => (item_length i < MAX_KILOBYTES_PER_PAYLOAD * 1024)%N)
         (visit_order payload) ->
  length (visit_order payload) < fuel ->
  is_Some (cuts fuel payload).
Proof.
  induction fuel as [|fuel IH]; intros payload Hnd Hsmall Hlen; [lia|].
  cbn [cuts]. unfold regulatePayload.
  rewrite regulate_split by done. cbn [included remainder].
  set (c := cut item_length payload) in *.
  destruct (any_nonempty (drop_entries c payload)) eqn:Hrem; [|done].
  apply any_nonempty_true in Hrem. rewrite visit_order_drop_entries in Hrem.
  assert (Hc : 0 < c).
  { subst c. unfold cut. destruct (visit_order payload) as [|x rest].
    - by rewrite drop_nil in Hrem.
    - apply Forall_cons in Hsmall as [Hx _]. simpl.
      destruct (within_budgets _ _) eqn:Hfit; [lia|]. budgets. lia. }
  destruct (IH (drop_entries c payload)) as [rest Hrest].
  - by rewrite keys_drop_entries.
  - rewrite visit_order_drop_entries. by apply Forall_drop.
  - rewrite visit_order_drop_entries, length_drop.
    destruct (visit_order payload); [by rewrite drop_nil in Hrem|]. simpl in *. lia.
  - rewrite Hrest. done.
Qed.

Lemma submit_all_app before :
  forall (after : list (obj (list item))) s,
  submit_all (before ++ after) s =
    match submit_all before s with
    | (s', Resolved true) => submit_all after s'
    | settled => settled
    end.
Proof.
  induction before as [|batch before IH]; intros after s; [done|].
  cbn [app submit_all]. unfold bind, try_catch, client_call, ret, console_debug.
  destruct (documents_broadcast (remote s) batch) as [r [[]|e]]; simpl; [|done].
  apply IH.
Qed.

(** The batches that went through are the calls made. *)
Lemma submit_all_calls (batches : list (obj (list item))) :
  forall s s',
  submit_all batches s = (s', Resolved true) ->
  calls s' = calls s ++ map Broadcast batches
  /\ documents s' = documents s /\ console s' = console s.
Proof.
  induction batches as [|batch batches IH]; intros s s'.
  - intros [= <-]. by rewrite app_nil_r.
  - cbn [submit_all]. unfold bind, try_catch, client_call, ret, console_debug.
    destruct (documents_broadcast (remote s) batch) as [r [[]|e]]; simpl; [|done].
    intros Hrest. apply IH in Hrest as (-> & -> & ->). simpl.
    by rewrite <- app_assoc.
Qed.

Lemma any_nonempty_blank {A V} (o : obj V) : any_nonempty (@blank A V o) = false.
Proof. unfold any_nonempty, blank. induction o as [|[k v] o IH]; simpl; done. Qed.

(** C1.  On an operation set, [broadcast] regulates the payload; submits the
    included batch only if one of its arrays holds an item; returns [false]
    at once when the submission throws; after a submission that succeeded or
    was skipped it dispatches itself on the remainder, and returns what that
    returns, if one of the remainder's arrays holds an item, and returns
    [true] otherwise.  So the batches go out in the order they are cut and
    the first one that throws stops the others: the calls made are the
    batches up to that one, and the result is [false]; with three batches to
    send and the remote throwing on the second, that is after two calls. *)
Theorem broadcast_in_order (payload : obj (list item)) :
  OperationSet payload ->
  let included := fst (regulatePayload item_length payload) in
  let remainder := snd (regulatePayload item_length payload) in
  (forall fuel s,
     broadcast (S fuel) payload s =
       if any_nonempty included then
         match documents_broadcast (remote s) included with
         | (r, Returns _) =>
             let s' := Store r (documents s) (calls s ++ [Broadcast included])
                         (console s) in
             if any_nonempty remainder then broadcast fuel remainder s'
             else (s', Resolved true)
         | (r, Throws e) =>
             (Store r (documents s) (calls s ++ [Broadcast included])
                (console s ++ [e]),
              Resolved false)
         end
       else if any_nonempty remainder then broadcast fuel remainder s
       else (s, Resolved true))
  /\ (forall fuel batches,
        cuts fuel payload = Some batches ->
        concat (map visit_order batches) = visit_order payload
        /\ Forall (fun batch => any_nonempty batch = true) batches
        /\ forall s, broadcast fuel payload s = submit_all batches s)
  /\ (forall fuel before batch after s s1 r e,
        cuts fuel payload = Some (before ++ batch :: after) ->
        submit_all before s = (s1, Resolved true) ->
        documents_broadcast (remote s1) batch = (r, Throws e) ->
        broadcast fuel payload s =
          (Store r (documents s)
             (calls s ++ map Broadcast before ++ [Broadcast batch])
             (console s ++ [e]),
           Resolved false))
  /\ (forall fuel first second third s r1 r2 e,
        cuts fuel payload = Some [first; second; third] ->
        documents_broadcast (remote s) first = (r1, Returns tt) ->
        documents_broadcast r1 second = (r2, Throws e) ->
        broadcast fuel payload s =
          (Store r2 (documents s)
             (calls s ++ [Broadcast first; Broadcast second])
             (console s ++ [e]),
           Resolved false)).
Proof.
  intros Hop included remainder. split; [|split; [|split]].
  - intros fuel s. by apply broadcast_step.
  - intros fuel batches Hcuts.
    destruct (cuts_in_order fuel payload batches) as [Hall Hne];
      [by apply operation_set_NoDup|done|].
    split; [done|]. split; [done|]. intros s. by apply broadcast_cuts.
  - intros fuel before batch after s s1 r e Hcuts Hbefore Hthrows.
    rewrite (broadcast_cuts fuel payload (before ++ batch :: after)) by done.
    rewrite submit_all_app, Hbefore.
    apply submit_all_calls in Hbefore as (Hcalls & Hdocs & Hconsole).
    cbn [submit_all]. unfold bind, try_catch, client_call, ret, console_debug.
    rewrite Hthrows. simpl. by rewrite Hcalls, Hdocs, Hconsole, <- app_assoc.
  - intros fuel first second third s r1 r2 e Hcuts H1 H2.
    rewrite (broadcast_cuts fuel payload [first; second; third]) by done.
    cbn [submit_all]. unfold bind, try_catch, client_call, ret, console_debug.
    rewrite H1. simpl. rewrite H2. simpl. by rewrite <- app_assoc.
Qed.

(** On an operation set whose first item has 4 KB or more, [broadcast] is
    dispatched again and again on the same payload. *)
Lemma broadcast_diverges (payload : obj (list item)) first :
  OperationSet payload ->
  head (visit_order payload) = Some first ->
  (MAX_KILOBYTES_PER_PAYLOAD * 1024 <= item_length first)%N ->
  forall fuel s, broadcast fuel payload s = (s, OutOfFuel).
Proof.
  intros Hop Hhead Hbig fuel s.
  pose proof (regulatePayload_oversized_head item_length payload first
                (operation_set_NoDup _ Hop) Hhead Hbig) as Hreg.
  induction fuel as [|fuel IH]; [done|].
  rewrite broadcast_step by done. rewrite Hreg. cbn [fst snd].
  rewrite any_nonempty_blank.
  replace (any_nonempty payload) with true; [done|].
  symmetry. apply any_nonempty_true. by destruct (visit_order payload).
Qed.

End BroadcastFacts.

(** C10.  When the first item visited has 4 KB or more, the regulator puts
    every item in the remainder and leaves [included] empty; [broadcast] on
    such an operation set dispatches itself on a remainder that is its own
    payload: whatever the fuel, no call is made and no result comes. *)
Theorem broadcast_oversized_first :
  (forall (Item : Type) (encoded_length : Item -> N) (payload : obj (list Item))
          first,
     NoDup (keys payload) ->
     head (visit_order payload) = Some first ->
     (MAX_KILOBYTES_PER_PAYLOAD * 1024 <= encoded_length first)%N ->
     regulatePayload encoded_length payload = (blank payload, payload)
     /\ visit_order (fst (regulatePayload encoded_length payload)) = []
     /\ visit_order (snd (regulatePayload encoded_length payload))
        = visit_order payload)
  /\ (forall (P : Platform) (payload : obj (list item)) first,
        OperationSet payload ->
        head (visit_order payload) = Some first ->
        (MAX_KILOBYTES_PER_PAYLOAD * 1024 <= item_length first)%N ->
        snd (regulatePayload item_length payload) = payload
        /\ forall fuel s, broadcast fuel payload s = (s, OutOfFuel)).
Proof.
  split.
  - intros Item encoded_length payload first Hnd Hhead Hbig.
    rewrite (regulatePayload_oversized_head encoded_length payload first)
      by done.
    split; [done|]. split; [|done].
    apply any_nonempty_false, any_nonempty_blank.
  - intros P payload first Hop Hhead Hbig. split.
    + by rewrite (regulatePayload_oversized_head item_length payload first)
        by (done || by apply operation_set_NoDup).
    + by apply (broadcast_diverges payload first).
Qed.

Lemma broadcast_in_order_witness :
  OperationSet three_batches
  /\ broadcast 3 three_batches (stub_store [] [false; true])
     = (Store (StubRemote [] []) ∅
          [Broadcast [("create", map Some (stub_documents 0 10 1));
                      ("replace", []); ("delete", [])];
           Broadcast [("create", map Some (stub_documents 10 10 1));
                      ("replace", []); ("delete", [])]]
          [RemoteError "scripted"],
        Resolved false).
Proof.
  assert (Hop : OperationSet three_batches) by (unfold OperationSet; reflexivity).
  split; [done|].
  destruct (@broadcast_in_order stub_platform three_batches Hop)
    as (_ & _ & _ & Hthree).
  by apply (Hthree 3 _ _ [("create", map Some (stub_documents 20 5 1));
                          ("replace", []); ("delete", [])]
                   (stub_store [] [false; true]) (StubRemote [] [true])
                   (StubRemote [] []) (RemoteError "scripted")).
Defined.

Lemma broadcast_oversized_first_witness :
  OperationSet oversized_first
  /\ regulatePayload item_length oversized_first
     = (blank oversized_first, oversized_first)
  /\ forall fuel, broadcast fuel oversized_first (stub_store [] [])
                  = (stub_store [] [], OutOfFuel).
Proof.
  assert (Hop : OperationSet oversized_first) by (unfold OperationSet; reflexivity).
  destruct broadcast_oversized_first as [Hregulate Hbroadcast].
  split; [done|]. split.
  - apply (Hregulate _ item_length oversized_first
             (Some (StubDocument "A" [] 4096))); [|done|by vm_compute].
    apply (bool_decide_unpack _). by vm_compute.
  - intros fuel.
    apply (Hbroadcast stub_platform oversized_first
             (Some (StubDocument "A" [] 4096)) Hop); [done|by vm_compute].
Defined.

(** ** The paginated fetcher *)

Section FetcherFacts.
Context `{Platform}.

Lemma all_loop_stops fuel allQuery (acc : list Document) page s :
  length acc < page * MAX_DOCUMENTS_PER_QUERY ->
  all_loop fuel allQuery acc page s = (s, Resolved acc).
Proof.
  intros Hlt.
  destruct fuel; cbn [all_loop];
    (destruct (Nat.leb_spec (page * MAX_DOCUMENTS_PER_QUERY) (length acc));
     [lia|done]).
Qed.

Lemma all_loop_pages allQuery (full : list (list Document)) (short : list Document) :
  forall fuel acc page s,
  Forall (fun results => length results = MAX_DOCUMENTS_PER_QUERY) full ->
  length short < MAX_DOCUMENTS_PER_QUERY ->
  length acc = page * MAX_DOCUMENTS_PER_QUERY ->
  serves allQuery (remote s) page (full ++ [short]) ->
  length full < fuel ->
  exists r,
    all_loop fuel allQuery acc page s =
      (Store r (documents s)
         (calls s
          ++ map (fun page =>
                    Get (PageQuery allQuery (page * MAX_DOCUMENTS_PER_QUERY)
                           MAX_DOCUMENTS_PER_QUERY))
                 (seq page (S (length full))))
         (console s),
       Resolved (acc ++ concat (full ++ [short]))).
Proof.
  induction full as [|results rest IH];
    intros fuel acc page s Hfull Hshort Hacc Hserves Hfuel;
    (destruct fuel as [|fuel]; [simpl in Hfuel; lia|]);
    cbn [all_loop]; rewrite Hacc, Nat.leb_refl;
    destruct Hserves as (r' & Hget & Hrest);
    unfold bind, retrieve, client_call; rewrite Hget; cbn [await ret].
  - exists r'.
    rewrite all_loop_stops
      by (rewrite length_app, Hacc; unfold MAX_DOCUMENTS_PER_QUERY in *; lia).
    simpl. by rewrite app_nil_r.
  - apply Forall_cons in Hfull as [Hlen Hfull].
    rewrite Nat.add_1_r.
    destruct (IH fuel (acc ++ results) (S page)
                (Store r' (documents s)
                   (calls s ++ [Get (PageQuery allQuery
                                       (page * MAX_DOCUMENTS_PER_QUERY)
                                       MAX_DOCUMENTS_PER_QUERY)])
                   (console s)))
      as (r & Hloop); try done.
    + rewrite length_app, Hacc, Hlen. unfold MAX_DOCUMENTS_PER_QUERY. lia.
    + simpl in Hfuel. lia.
    + exists r. rewrite Hloop. cbn [remote documents calls console].
      cbn [seq map app concat]. by rewrite <- !app_assoc.
Qed.

Lemma all_loop_adds_calls fuel allQuery :
  forall (acc : list Document) page, adds_calls (all_loop fuel allQuery acc page).
Proof.
  induction fuel as [|fuel IH]; intros acc page s; cbn [all_loop];
    destruct (page * MAX_DOCUMENTS_PER_QUERY <=? length acc);
    try (exists []; by rewrite app_nil_r).
  unfold bind, retrieve, client_call.
  destruct (documents_get (remote s) _) as [r [results|e]]; simpl.
  - destruct (IH (acc ++ results) (page + 1)
                (Store r (documents s) (calls s ++ [Get (PageQuery allQuery
                   (page * MAX_DOCUMENTS_PER_QUERY) MAX_DOCUMENTS_PER_QUERY)])
                   (console s))) as (more & ->).
    simpl. rewrite <- app_assoc. by eexists.
  - by eexists.
Qed.

(** The first query of [all] is sent whatever the collection holds. *)
Lemma all_first_query fuel allQuery s :
  exists more,
    calls (fst (all (S fuel) allQuery s))
    = calls s ++ Get (PageQuery allQuery 0 MAX_DOCUMENTS_PER_QUERY) :: more.
Proof.
  unfold all, bind at 1. cbn [all_loop]. simpl.
  unfold bind at 1, retrieve, client_call.
  destruct (documents_get (remote s) _) as [r [results|e]]; simpl.
  - destruct (all_loop_adds_calls fuel allQuery results 1
                (Store r (documents s)
                   (calls s ++ [Get (PageQuery allQuery 0 MAX_DOCUMENTS_PER_QUERY)])
                   (console s))) as (more & Hmore).
    destruct (all_loop fuel allQuery results 1 _) as [s' [found|e|]];
      simpl in *; rewrite Hmore, <- app_assoc; by eexists.
  - by eexists.
Qed.

(** C7.  [all] starts at page 0, asks for [startAt = page * 100] with
    [limit = 100], appends each page, and stops once the accumulator is
    shorter than [page * 100]; the first query is sent whatever the
    collection holds.  When the remote serves full pages and then, at its
    [k]-th call, a short one, [all] resolves after exactly [k] calls to all
    the items in order, and commits them to the mirror. *)
Theorem all_stops_on_short_page allQuery :
  (forall fuel s,
     exists more,
       calls (fst (all (S fuel) allQuery s))
       = calls s ++ Get (PageQuery allQuery 0 MAX_DOCUMENTS_PER_QUERY) :: more)
  /\ (forall (full : list (list Document)) (short : list Document) fuel s,
        Forall (fun results => length results = MAX_DOCUMENTS_PER_QUERY) full ->
        length short < MAX_DOCUMENTS_PER_QUERY ->
        serves allQuery (remote s) 0 (full ++ [short]) ->
        length full < fuel ->
        exists r,
          all fuel allQuery s =
            (Store r (keyBy (map toJSON (concat (full ++ [short]))))
               (calls s ++ page_queries allQuery (S (length full)))
               (console s),
             Resolved (concat (full ++ [short])))
          /\ length (page_queries allQuery (S (length full))) = S (length full)).
Proof.
  split; [intros; apply all_first_query|].
  intros full short fuel s Hfull Hshort Hserves Hfuel.
  destruct (all_loop_pages allQuery full short fuel [] 0 s) as (r & Hloop);
    try done.
  exists r. split.
  - unfold all, bind. rewrite Hloop. done.
  - unfold page_queries. by rewrite length_map, length_seq.
Qed.

End FetcherFacts.

Lemma all_stops_on_short_page_witness :
  exists r,
    all 2 [] (stub_store (stub_documents 0 130 1) [])
    = (Store r (keyBy (map toJSON (stub_documents 0 130 1)))
         [Get (PageQuery [] 0 100); Get (PageQuery [] 100 100)] [],
       Resolved (stub_documents 0 130 1)).
Proof.
  destruct (@all_stops_on_short_page stub_platform []) as [_ Hpages].
  destruct (Hpages [stub_documents 0 100 1] (stub_documents 100 30 1) 2
              (stub_store (stub_documents 0 130 1) []))
    as (r & Hall & _).
  - by repeat constructor.
  - vm_compute. lia.
  - simpl. eexists. split; [reflexivity|]. eexists. split; [reflexivity|done].
  - simpl. lia.
  - exists r. rewrite Hall. reflexivity.
Defined.

(** ** The bulk mutation planner *)

Section PlannerFacts.
Context `{Platform}.

Lemma one_found id s r found others :
  documents_get (remote s) (IdQuery (default_null id)) = (r, Returns (found :: others)) ->
  one id s =
    (Store r (<[snapshot_id (toJSON found) := toJSON found]> (documents s))
       (calls s ++ [Get (IdQuery (default_null id))]) (console s),
     Resolved (Some found)).
Proof.
  intros Hget. unfold one, bind, retrieve, client_call. by rewrite Hget.
Qed.

Lemma one_throws id s r e :
  documents_get (remote s) (IdQuery (default_null id)) = (r, Throws e) ->
  one id s =
    (Store r (documents s) (calls s ++ [Get (IdQuery (default_null id))])
       (console s),
     Rejected e).
Proof.
  intros Hget. unfold one, bind, retrieve, client_call. by rewrite Hget.
Qed.

Lemma one_missing id s r :
  documents_get (remote s) (IdQuery (default_null id)) = (r, Returns []) ->
  one id s =
    (Store r (documents s) (calls s ++ [Get (IdQuery (default_null id))])
       (console s),
     Rejected (TypeError "payload.toJSON")).
Proof.
  intros Hget. unfold one, bind, retrieve, client_call. by rewrite Hget.
Qed.

Lemma compose_returns payload s r composed :
  documents_create (remote s) payload = (r, Returns composed) ->
  compose payload s =
    (Store r (documents s) (calls s ++ [Create payload]) (console s),
     Resolved (Some composed)).
Proof.
  intros Hcreate. unfold compose, try_catch, bind, client_call.
  by rewrite Hcreate.
Qed.

Lemma compose_throws payload s r e :
  documents_create (remote s) payload = (r, Throws e) ->
  compose payload s =
    (Store r (documents s) (calls s ++ [Create payload]) (console s ++ [e]),
     Resolved None).
Proof.
  intros Hcreate. unfold compose, try_catch, bind, client_call.
  by rewrite Hcreate.
Qed.

Lemma plan_app before after :
  forall (planned : obj (list item)) s,
  plan (before ++ after) planned s =
    match plan before planned s with
    | (s', Resolved planned') => plan after planned' s'
    | (s', Rejected e) => (s', Rejected e)
    | (s', OutOfFuel) => (s', OutOfFuel)
    end.
Proof.
  induction before as [|raw before IH]; intros planned s; [done|].
  cbn [app plan]. unfold bind.
  destruct (plan_item planned raw s) as [s' [planned'| |]]; [apply IH|done..].
Qed.

(** The three cases of the loop body of [multiple], on a remote that finds
    the record or composes one. *)
Lemma plan_item_cases (planned : obj (list item)) (raw : obj jsval)
    (s : store) :
  (forall r found others,
     keys raw = ["$id"] ->
     documents_get (remote s) (IdQuery (default_null (prop "$id" raw)))
     = (r, Returns (found :: others)) ->
     plan_item planned raw s =
       (Store r (<[snapshot_id (toJSON found) := toJSON found]> (documents s))
          (calls s ++ [Get (IdQuery (default_null (prop "$id" raw)))])
          (console s),
        Resolved (obj_append "delete" (Some found) planned)))
  /\ (forall r found others,
        keys raw <> ["$id"] ->
        truthy (prop "$id" raw) = true ->
        documents_get (remote s) (IdQuery (prop "$id" raw))
        = (r, Returns (found :: others)) ->
        plan_item planned raw s =
          (Store r (<[snapshot_id (toJSON found) := toJSON found]> (documents s))
             (calls s ++ [Get (IdQuery (prop "$id" raw))]) (console s),
           Resolved
             (obj_append "replace"
                (Some (setData found
                         (filter (fun field => String.prefix "$" (fst field) = false)
                                 raw)))
                planned)))
  /\ (forall r composed,
        keys raw <> ["$id"] ->
        truthy (prop "$id" raw) = false ->
        documents_create (remote s) raw = (r, Returns composed) ->
        plan_item planned raw s =
          (Store r (documents s) (calls s ++ [Create raw]) (console s),
           Resolved (obj_append "create" (Some composed) planned))).
Proof.
  split; [|split].
  - intros r found others Hkeys Hget. unfold plan_item.
    rewrite decide_True by done. unfold bind.
    by rewrite (one_found _ _ _ _ _ Hget).
  - intros r found others Hkeys Hid Hget. unfold plan_item.
    rewrite decide_False by done. rewrite Hid. unfold bind.
    assert (Hdef : default_null (prop "$id" raw) = prop "$id" raw)
      by (by destruct (prop "$id" raw)).
    rewrite <- Hdef in Hget. rewrite (one_found _ _ _ _ _ Hget), Hdef.
    cbn [call_setData]. unfold ret, pickBy, startsWith.
    do 5 f_equal. apply list_filter_iff.
    intros [k v]. simpl. by destruct (String.prefix "$" k).
  - intros r composed Hkeys Hid Hcreate. unfold plan_item.
    rewrite decide_False by done. rewrite Hid. unfold bind.
    by rewrite (compose_returns _ _ _ _ Hcreate).
Qed.

Lemma plan_item_compose_failure (planned : obj (list item)) raw s r e :
  keys raw <> ["$id"] ->
  truthy (prop "$id" raw) = false ->
  documents_create (remote s) raw = (r, Throws e) ->
  plan_item planned raw s =
    (Store r (documents s) (calls s ++ [Create raw]) (console s ++ [e]),
     Resolved (obj_append "create" None planned)).
Proof.
  intros Hkeys Hid Hcreate. unfold plan_item.
  rewrite decide_False by done. rewrite Hid. unfold bind.
  by rewrite (compose_throws _ _ _ _ Hcreate).
Qed.

Lemma plan_item_lookup_failure (planned : obj (list item)) raw s r e :
  keys raw = ["$id"] \/ truthy (prop "$id" raw) = true ->
  documents_get (remote s) (IdQuery (default_null (prop "$id" raw))) = (r, Throws e) ->
  plan_item planned raw s =
    (Store r (documents s)
       (calls s ++ [Get (IdQuery (default_null (prop "$id" raw)))]) (console s),
     Rejected e).
Proof.
  intros Hclass Hget. unfold plan_item.
  destruct (decide (keys raw = ["$id"])) as [Hkeys|Hkeys].
  - unfold bind. by rewrite (one_throws _ _ _ _ Hget).
  - destruct Hclass as [?|Hid]; [done|]. rewrite Hid.
    unfold bind. by rewrite (one_throws _ _ _ _ Hget).
Qed.

(** A lookup that throws ends [multiple]: the exception is logged, nothing
    after the lookup is called, and the result is [undefined]. *)
Lemma multiple_lookup_failure fuel payload s before raw after s1 planned1 r e :
  array_of "items" (fst (regulatePayload raw_length [("items", payload)]))
  = before ++ raw :: after ->
  plan before no_documents s = (s1, Resolved planned1) ->
  keys raw = ["$id"] \/ truthy (prop "$id" raw) = true ->
  documents_get (remote s1) (IdQuery (default_null (prop "$id" raw))) = (r, Throws e) ->
  multiple (S fuel) payload s =
    (Store r (documents s1)
       (calls s1 ++ [Get (IdQuery (default_null (prop "$id" raw)))])
       (console s1 ++ [e]),
     Resolved None).
Proof.
  intros Hitems Hbefore Hclass Hget. cbn [multiple].
  destruct (regulatePayload raw_length [("items", payload)]) as [included remainder].
  cbn [fst] in Hitems. rewrite Hitems.
  unfold try_catch, bind at 1. rewrite plan_app.
  fold (@no_documents item). rewrite Hbefore. cbn [plan]. unfold bind at 1.
  by rewrite (plan_item_lookup_failure _ _ _ _ _ Hclass Hget).
Qed.

(** The remainder that [multiple] tests is the object [{ items }]: it has no
    property [length]. *)
Lemma remainder_length_undefined {A} (len : A -> N) (payload : list A) :
  obj_get "length" (snd (regulatePayload len [("items", payload)])) = None.
Proof.
  unfold regulatePayload. rewrite regulate_split; [done|].
  simpl. apply NoDup_singleton.
Qed.

End PlannerFacts.

(** C6.  The planner sorts each raw item.  An item whose keys are exactly
    [$id] is a delete: the record is looked up by that id and joins
    [delete].  Otherwise an item with a truthy [$id] is a replace: the record
    is looked up, given the fields of the raw item whose key does not start
    with [$], and joins [replace].  Otherwise the item is a create: the
    record composed from it joins [create].  The three items of the scenario
    end up one in each array. *)
Theorem plan_classifies :
  (forall (P : Platform) (planned : obj (list item)) (raw : obj jsval) (s : store),
     (forall r found others,
        keys raw = ["$id"] ->
        documents_get (remote s) (IdQuery (default_null (prop "$id" raw)))
        = (r, Returns (found :: others)) ->
        plan_item planned raw s =
          (Store r (<[snapshot_id (toJSON found) := toJSON found]> (documents s))
             (calls s ++ [Get (IdQuery (default_null (prop "$id" raw)))])
             (console s),
           Resolved (obj_append "delete" (Some found) planned)))
     /\ (forall r found others,
           keys raw <> ["$id"] ->
           truthy (prop "$id" raw) = true ->
           documents_get (remote s) (IdQuery (prop "$id" raw))
           = (r, Returns (found :: others)) ->
           plan_item planned raw s =
             (Store r (<[snapshot_id (toJSON found) := toJSON found]> (documents s))
                (calls s ++ [Get (IdQuery (prop "$id" raw))]) (console s),
              Resolved
                (obj_append "replace"
                   (Some (setData found
                            (filter (fun field => String.prefix "$" (fst field) = false)
                                    raw)))
                   planned)))
     /\ (forall r composed,
           keys raw <> ["$id"] ->
           truthy (prop "$id" raw) = false ->
           documents_create (remote s) raw = (r, Returns composed) ->
           plan_item planned raw s =
             (Store r (documents s) (calls s ++ [Create raw]) (console s),
              Resolved (obj_append "create" (Some composed) planned))))
  /\ snd (plan scenario_items no_documents (stub_store scenario_collection []))
     = Resolved
         [("create", [Some (StubDocument "" [("name", JStr "y")] 1)]);
          ("replace", [Some (StubDocument "B" [("name", JStr "x")] 20)]);
          ("delete", [Some (StubDocument "A" [("name", JStr "a")] 20)])].
Proof.
  split; [|by vm_compute].
  intros P planned raw s. apply plan_item_cases.
Qed.

Lemma plan_classifies_witness :
  plan_item no_documents [("$id", JStr "A")] (stub_store scenario_collection [])
  = (Store (StubRemote scenario_collection [])
       {["A" := StubDocument "A" [("name", JStr "a")] 20]}
       [Get (IdQuery (JStr "A"))] [],
     Resolved [("create", []); ("replace", []);
               ("delete", [Some (StubDocument "A" [("name", JStr "a")] 20)])]).
Proof.
  destruct plan_classifies as [Hcases _].
  destruct (Hcases stub_platform no_documents [("$id", JStr "A")]
              (stub_store scenario_collection [])) as (Hdelete & _ & _).
  by rewrite (Hdelete (StubRemote scenario_collection [])
                (StubDocument "A" [("name", JStr "a")] 20) []).
Defined.

(** ** Where exceptions stop *)

Section HandlerFacts.
Context `{Platform}.

(** A [try] whose handler logs and returns never rejects. *)
Lemma try_catch_debug_resolves {A} (body : action store A) (fallback : A) s e :
  snd (try_catch body (fun e => console_debug e;; ret fallback) s) <> Rejected e.
Proof.
  unfold try_catch. destruct (body s) as [s' [a|e'|]]; done.
Qed.

Lemma broadcast_never_rejects fuel :
  forall (payload : obj (list item)) s e,
  snd (broadcast fuel payload s) <> Rejected e.
Proof.
  induction fuel as [|fuel IH]; intros payload s e; [done|].
  cbn [broadcast]. unfold bind at 1.
  pose proof (try_catch_debug_resolves
                (c <- broadcast_try payload;; ret (Some c)) None s) as Htry.
  destruct (try_catch _ _ s) as [s' [[[|remainder]|]|e'|]]; simpl;
    [done|apply IH|done| |done].
  intros [= ->]. by apply (Htry e).
Qed.

Lemma multiple_never_rejects fuel payload s e :
  snd (multiple fuel payload s) <> Rejected e.
Proof.
  destruct fuel as [|fuel]; [done|]. cbn [multiple].
  destruct (regulatePayload raw_length [("items", payload)]) as [included remainder].
  apply try_catch_debug_resolves.
Qed.

(** [regulatePayload] on an object with one array of one item. *)
Lemma regulatePayload_lone (k : string) (i : item) :
  regulatePayload item_length [(k, [i])] =
    if within_budgets (item_length i) 1
    then ([(k, [i])], [(k, [])])
    else ([(k, [])], [(k, [i])]).
Proof.
  unfold regulatePayload, regulate, zipObject, times, visit_key, visit, obj_append.
  simpl. rewrite !String.eqb_refl, N.add_0_l. simpl.
  by destruct (within_budgets _ _).
Qed.

(** [broadcast] on [{ create: [x] }], [{ replace: [x] }] or [{ delete: [x] }]
    reads the [length] of an array that is not there: it returns [false]. *)
Lemma broadcast_lone fuel (k : string) (i : item) s :
  k ∈ ["create"; "replace"; "delete"] ->
  exists s', broadcast (S fuel) [(k, [i])] s = (s', Resolved false).
Proof.
  intros Hk. cbn [broadcast]. unfold broadcast_try.
  rewrite regulatePayload_lone.
  rewrite !elem_of_cons, elem_of_nil in Hk.
  destruct Hk as [->|[->|[->|[]]]];
    destruct (within_budgets _ _);
    unfold bind, try_catch, any_length, array_length, client_call, throw, ret,
      console_debug; simpl;
    try (destruct (documents_broadcast (remote s) _) as [r [[]|e]]; simpl);
    eexists; reflexivity.
Qed.

Lemma compose_resolves payload s :
  exists s' composed, compose payload s = (s', Resolved composed).
Proof.
  unfold compose, try_catch, bind, client_call.
  destruct (documents_create (remote s) payload) as [r [d|e]]; simpl;
    eexists _, _; reflexivity.
Qed.

Lemma create_resolves fuel payload s :
  snd (create (S fuel) payload s) = Resolved tt.
Proof.
  unfold create, try_catch. unfold bind at 1.
  destruct (compose_resolves payload s) as (s1 & composed & ->).
  unfold bind at 1.
  destruct (broadcast_lone fuel "create" composed s1) as (s2 & ->);
    [rewrite !elem_of_cons; auto|].
  done.
Qed.

(** [one] resolves to a document or rejects: on [undefined] its commit
    throws. *)
Lemma one_settles id s :
  (exists s1 found, one id s = (s1, Resolved (Some found)))
  \/ (exists s1 e, one id s = (s1, Rejected e)).
Proof.
  unfold one, bind, commit_one, get_documents, set_documents, ret, throw,
    retrieve, client_call.
  destruct (documents_get (remote s) _) as [r [[|d ds]|e]]; simpl; eauto.
Qed.

Lemma replace_resolves fuel payload s :
  snd (replace (S fuel) payload s) = Resolved tt.
Proof.
  unfold replace, try_catch. unfold bind at 1.
  destruct (one_settles (prop "$id" payload) s)
    as [(s1 & found & ->)|(s1 & e & ->)]; [|done].
  cbn [call_setData]. unfold ret at 1, bind at 1 2.
  destruct (broadcast_lone fuel "replace" (Some (setData found payload)) s1)
    as (s2 & ->); [rewrite !elem_of_cons; auto|].
  done.
Qed.

Lemma delete_resolves fuel payload s :
  snd (delete (S fuel) payload s) = Resolved tt.
Proof.
  unfold delete, try_catch. unfold bind at 1.
  destruct (one_settles (prop "$id" payload) s)
    as [(s1 & found & ->)|(s1 & e & ->)]; [|done].
  unfold bind at 1.
  destruct (broadcast_lone fuel "delete" (Some found) s1) as (s2 & ->);
    [rewrite !elem_of_cons; auto|].
  done.
Qed.

Lemma all_rejects fuel allQuery s r e :
  documents_get (remote s) (PageQuery allQuery 0 MAX_DOCUMENTS_PER_QUERY)
  = (r, Throws e) ->
  snd (all (S fuel) allQuery s) = Rejected e.
Proof.
  intros Hget. unfold all, bind at 1. cbn [all_loop]. simpl.
  unfold bind, retrieve, client_call. by rewrite Hget.
Qed.

(** When no item has 4 KB or more, [broadcast] on an operation set resolves
    once the fuel exceeds the number of items. *)
Lemma broadcast_resolves fuel (payload : obj (list item)) s :
  OperationSet payload ->
  Forall (fun i => (item_length i < MAX_KILOBYTES_PER_PAYLOAD * 1024)%N)
         (visit_order payload) ->
  length (visit_order payload) < fuel ->
  exists s' accepted, broadcast fuel payload s = (s', Resolved accepted).
Proof.
  intros Hop Hsmall Hfuel.
  destruct (cuts_terminates fuel payload) as [batches Hcuts];
    [by apply operation_set_NoDup|done|done|].
  rewrite (broadcast_cuts fuel payload batches) by done.
  clear Hcuts. revert s.
  induction batches as [|batch rest IH]; intros s; [by eexists _, _|].
  cbn [submit_all]. unfold bind, try_catch, client_call.
  destruct (documents_broadcast (remote s) batch) as [r [[]|e]]; simpl.
  - apply IH.
  - by eexists _, _.
Qed.

End HandlerFacts.

(** ** What the planner does with failures and with the remainder *)

Section RemainderFacts.
Context {Item : Type}.
Variable encoded_length : Item -> N.

Lemma cut_from_take bytes count (items : list Item) :
  cut_from encoded_length bytes count
    (take (cut_from encoded_length bytes count items) items)
  = cut_from encoded_length bytes count items.
Proof.
  revert bytes count. induction items as [|x items IH]; intros bytes count; [done|].
  cbn [cut_from]. destruct (within_budgets _ _) eqn:Hfit; [|done].
  cbn [take cut_from]. by rewrite Hfit, IH.
Qed.

(** Regulating [{ items }]: the items before the cut, and the rest. *)
Lemma regulatePayload_items (payload : list Item) :
  regulatePayload encoded_length [("items", payload)] =
    ([("items", take (cut encoded_length [("items", payload)]) payload)],
     [("items", drop (cut encoded_length [("items", payload)]) payload)]).
Proof.
  unfold regulatePayload. rewrite regulate_split; [done|].
  simpl. apply NoDup_singleton.
Qed.

Lemma regulatePayload_items_included (payload : list Item) :
  let included := take (cut encoded_length [("items", payload)]) payload in
  fst (regulatePayload encoded_length [("items", included)])
  = [("items", included)].
Proof.
  intros included. rewrite regulatePayload_items. cbn [fst].
  subst included. unfold cut, visit_order. simpl. rewrite !app_nil_r.
  by rewrite cut_from_take, take_take, Nat.min_id.
Qed.

End RemainderFacts.

Section MultipleFacts.
Context `{Platform}.

(** [multiple] does with a payload what it does with the items that
    regulation includes: the remainder plays no part. *)
Lemma multiple_included fuel payload s :
  multiple (S fuel) payload s =
    multiple (S fuel)
      (take (cut raw_length [("items", payload)]) payload) s.
Proof.
  cbn [multiple].
  pose proof (regulatePayload_items_included raw_length payload) as Hinc.
  cbn zeta in Hinc. rewrite regulatePayload_items in Hinc.
  injection Hinc as Hinc.
  rewrite !regulatePayload_items, Hinc.
  unfold array_of. simpl. done.
Qed.

Lemma keeps_ret {A} (a : A) : keeps_documents (ret a).
Proof. by intros s. Qed.

Lemma keeps_throw {A} e : keeps_documents (@throw store A e).
Proof. by intros s. Qed.

Lemma keeps_bind {A B} (m : action store A) (k : A -> action store B) :
  keeps_documents m -> (forall a, keeps_documents (k a)) ->
  keeps_documents (bind m k).
Proof.
  intros Hm Hk s. unfold bind. specialize (Hm s).
  destruct (m s) as [s' [a|e|]]; simpl in *; [|done..].
  by rewrite Hk.
Qed.

Lemma keeps_try_catch {A} (m : action store A) handler :
  keeps_documents m -> (forall e, keeps_documents (handler e)) ->
  keeps_documents (try_catch m handler).
Proof.
  intros Hm Hh s. unfold try_catch. specialize (Hm s).
  destruct (m s) as [s' [a|e|]]; simpl in *; [done| |done].
  by rewrite Hh.
Qed.

Lemma keeps_console_debug e : keeps_documents (console_debug e).
Proof. by intros s. Qed.

Lemma keeps_client_call {A} c (f : Remote -> Remote * response A) :
  keeps_documents (client_call c f).
Proof.
  intros s. unfold client_call. by destruct (f (remote s)) as [r [a|e]].
Qed.

Lemma keeps_any_length (o : obj (list item)) : keeps_documents (any_length o).
Proof.
  unfold any_length, array_length.
  repeat (apply keeps_bind; [case_match; [apply keeps_ret|apply keeps_throw]|];
          intros ?; case_match; try apply keeps_ret).
  case_match; [apply keeps_ret|apply keeps_throw].
Qed.

(** [broadcast] never writes to the mirror. *)
Lemma broadcast_keeps_documents fuel :
  forall (payload : obj (list item)), keeps_documents (broadcast fuel payload).
Proof.
  induction fuel as [|fuel IH]; intros payload; [by intros s|].
  cbn [broadcast]. apply keeps_bind.
  - apply keeps_try_catch.
    + apply keeps_bind; [|intros; apply keeps_ret].
      unfold broadcast_try.
      destruct (regulatePayload item_length payload) as [included remainder].
      apply keeps_bind; [apply keeps_any_length|]. intros submit.
      apply keeps_bind.
      { destruct submit; [apply keeps_client_call|apply keeps_ret]. }
      intros _. apply keeps_bind; [apply keeps_any_length|].
      intros []; apply keeps_ret.
    + intros e. apply keeps_bind; [apply keeps_console_debug|].
      intros; apply keeps_ret.
  - intros [[|remainder]|]; [apply keeps_ret|apply IH|apply keeps_ret].
Qed.

Lemma each_commit_one (created : list Document) s :
  each (map Some created) commit_one s =
    (Store (remote s)
       (fold_left
          (fun m document => <[snapshot_id (toJSON document) := toJSON document]> m)
          created (documents s))
       (calls s) (console s),
     Resolved tt).
Proof.
  revert s. induction created as [|document created IH]; intros s; [by destruct s|].
  cbn [map each]. unfold bind at 1. cbn. by rewrite IH.
Qed.

Lemma each_commit_remove (deleted : list Document) s :
  each (map Some deleted) commit_remove s =
    (Store (remote s)
       (fold_left
          (fun m document => base.delete (snapshot_id (toJSON document)) m)
          deleted (documents s))
       (calls s) (console s),
     Resolved tt).
Proof.
  revert s. induction deleted as [|document deleted IH]; intros s; [by destruct s|].
  cbn [map each]. unfold bind at 1. cbn. by rewrite IH.
Qed.

(** After a broadcast that returned [true], the created and replaced
    documents are committed and the deleted ones evicted. *)
Lemma multiple_commits fuel payload s s1 s2 created replaced deleted :
  plan (array_of "items" (fst (regulatePayload raw_length [("items", payload)])))
    no_documents s
  = (s1, Resolved [("create", map Some created); ("replace", map Some replaced);
                   ("delete", map Some deleted)]) ->
  broadcast fuel [("create", map Some created); ("replace", map Some replaced);
                  ("delete", map Some deleted)] s1
  = (s2, Resolved true) ->
  multiple (S fuel) payload s =
    (Store (remote s2) (mirror_after created replaced deleted (documents s2))
       (calls s2) (console s2),
     Resolved (Some true)).
Proof.
  intros Hplan Hsent. cbn [multiple].
  rewrite regulatePayload_items in Hplan |- *. cbn [fst] in Hplan.
  unfold try_catch, bind at 1. fold (@no_documents item). rewrite Hplan.
  unfold bind at 1. rewrite Hsent.
  unfold array_of. simpl. rewrite <- map_app.
  unfold bind at 1. rewrite each_commit_one.
  unfold bind at 1. rewrite each_commit_remove. done.
Qed.

(** After a broadcast that returned [false] nothing is committed: the store
    is as [broadcast] left it and the mirror as the plan left it. *)
Lemma multiple_without_commit fuel payload s s1 s2 planned :
  plan (array_of "items" (fst (regulatePayload raw_length [("items", payload)])))
    no_documents s
  = (s1, Resolved planned) ->
  broadcast fuel planned s1 = (s2, Resolved false) ->
  multiple (S fuel) payload s = (s2, Resolved None)
  /\ documents s2 = documents s1.
Proof.
  intros Hplan Hsent. split.
  - cbn [multiple].
    rewrite regulatePayload_items in Hplan |- *. cbn [fst] in Hplan.
    unfold try_catch, bind at 1. fold (@no_documents item). rewrite Hplan.
    unfold bind at 1. by rewrite Hsent.
  - pose proof (broadcast_keeps_documents fuel planned s1) as Hkeep.
    by rewrite Hsent in Hkeep.
Qed.

End MultipleFacts.

(** C4.  After a broadcast that returned [true], [multiple] commits the
    created and replaced documents to the mirror and evicts the deleted ones;
    after one that returned [false] it commits nothing.  But the remainder
    that it then tests with [remainder.length] is the object [{ items }],
    which has no such property, so [multiple] never dispatches itself: it
    does with a payload what it does with the included items alone.  With
    eleven raw items and a remote that accepts everything, ten are composed,
    broadcast and committed, [true] is returned, and the eleventh is never
    composed. *)
Theorem multiple_leaves_remainder :
  (forall (P : Platform) (payload : list (obj jsval)),
     obj_get "length" (snd (regulatePayload raw_length [("items", payload)])) = None)
  /\ (forall (P : Platform) fuel payload s,
        multiple (S fuel) payload s =
          multiple (S fuel)
            (take (cut raw_length [("items", payload)]) payload) s)
  /\ (forall (P : Platform) fuel payload s s1 s2 created replaced deleted,
        plan (array_of "items" (fst (regulatePayload raw_length [("items", payload)])))
          no_documents s
        = (s1, Resolved [("create", map Some created);
                         ("replace", map Some replaced);
                         ("delete", map Some deleted)]) ->
        broadcast fuel [("create", map Some created);
                        ("replace", map Some replaced);
                        ("delete", map Some deleted)] s1
        = (s2, Resolved true) ->
        multiple (S fuel) payload s =
          (Store (remote s2) (mirror_after created replaced deleted (documents s2))
             (calls s2) (console s2),
           Resolved (Some true)))
  /\ (forall (P : Platform) fuel payload s s1 s2 planned,
        plan (array_of "items" (fst (regulatePayload raw_length [("items", payload)])))
          no_documents s
        = (s1, Resolved planned) ->
        broadcast fuel planned s1 = (s2, Resolved false) ->
        multiple (S fuel) payload s = (s2, Resolved None)
        /\ documents s2 = documents s1)
  /\ snd (multiple 3 eleven_items (stub_store [] [])) = Resolved (Some true)
  /\ calls (fst (multiple 3 eleven_items (stub_store [] [])))
     = map Create (take 10 eleven_items)
       ++ [Broadcast
             [("create",
               map (fun raw => Some (StubDocument "" raw 1)) (take 10 eleven_items));
              ("replace", []); ("delete", [])]]
  /\ ~ In (Create [("n", JNum 10)])
          (calls (fst (multiple 3 eleven_items (stub_store [] [])))).
Proof.
  split; [|split; [|split; [|split; [|split; [|split]]]]].
  - intros P payload. apply remainder_length_undefined.
  - intros P fuel payload s. apply multiple_included.
  - intros P fuel payload s s1 s2 created replaced deleted.
    apply multiple_commits.
  - intros P fuel payload s s1 s2 planned. apply multiple_without_commit.
  - by vm_compute.
  - by vm_compute.
  - intros Hin. vm_compute in Hin. intuition discriminate.
Qed.

(** A lookup throws on the first of two raw items: the second is never
    composed and nothing is broadcast. *)
Lemma lookup_failure_aborts_plan :
  calls (fst (multiple 3 delete_then_create (stub_store scenario_collection [true])))
  = [Get (IdQuery (JStr "A"))]
  /\ console (fst (multiple 3 delete_then_create
                     (stub_store scenario_collection [true])))
     = [RemoteError "scripted"]
  /\ snd (multiple 3 delete_then_create (stub_store scenario_collection [true]))
     = Resolved None
  /\ ~ In (Create [("name", JStr "y")])
          (calls (fst (multiple 3 delete_then_create
                         (stub_store scenario_collection [true])))).
Proof.
  repeat split; try by vm_compute.
  intros Hin. vm_compute in Hin. intuition discriminate.
Qed.

(** C5.  A compose that throws is caught and logged inside
    [compose]: [undefined] takes the item's place in [create] and the plan
    goes on with the remaining raw items, so that an operation set is still
    broadcast.  A lookup that throws is caught and logged by the one handler
    around the whole plan: the remaining raw items are not processed,
    nothing is broadcast and [multiple] returns [undefined]. *)
Theorem plan_failure_policy :
  (forall (P : Platform) (planned : obj (list item)) raw rest s r e,
     keys raw <> ["$id"] ->
     truthy (prop "$id" raw) = false ->
     documents_create (remote s) raw = (r, Throws e) ->
     plan (raw :: rest) planned s =
       plan rest (obj_append "create" None planned)
         (Store r (documents s) (calls s ++ [Create raw]) (console s ++ [e])))
  /\ (forall (P : Platform) fuel payload s before raw after s1 planned1 r e,
        array_of "items" (fst (regulatePayload raw_length [("items", payload)]))
        = before ++ raw :: after ->
        plan before no_documents s = (s1, Resolved planned1) ->
        keys raw = ["$id"] \/ truthy (prop "$id" raw) = true ->
        documents_get (remote s1) (IdQuery (default_null (prop "$id" raw)))
        = (r, Throws e) ->
        multiple (S fuel) payload s =
          (Store r (documents s1)
             (calls s1 ++ [Get (IdQuery (default_null (prop "$id" raw)))])
             (console s1 ++ [e]),
           Resolved None))
  /\ calls (fst (multiple 3 [[("name", JStr "y")]; [("$id", JStr "A")]]
                   (stub_store scenario_collection [true])))
     = [Create [("name", JStr "y")];
        Get (IdQuery (JStr "A"));
        Broadcast [("create", [None]); ("replace", []);
                   ("delete", [Some (StubDocument "A" [("name", JStr "a")] 20)])]].
Proof.
  split; [|split].
  - intros P planned raw rest s r e Hkeys Hid Hcreate. cbn [plan]. unfold bind.
    by rewrite (plan_item_compose_failure planned raw s r e).
  - intros P fuel payload s before raw after s1 planned1 r e.
    apply multiple_lookup_failure.
  - by vm_compute.
Qed.

Lemma plan_failure_policy_witness :
  multiple 3 [[("name", JStr "y")]; [("$id", JStr "A")]; [("name", JStr "z")]]
    (stub_store scenario_collection [false; true])
  = (Store (StubRemote scenario_collection []) ∅
       [Create [("name", JStr "y")]; Get (IdQuery (JStr "A"))]
       [RemoteError "scripted"],
     Resolved None).
Proof.
  destruct plan_failure_policy as (_ & Hlookup & _).
  rewrite (Hlookup stub_platform 2
             [[("name", JStr "y")]; [("$id", JStr "A")]; [("name", JStr "z")]]
             (stub_store scenario_collection [false; true])
             [[("name", JStr "y")]] [("$id", JStr "A")] [[("name", JStr "z")]]
             (@Store stub_platform (StubRemote scenario_collection [true]) ∅
                [Create [("name", JStr "y")]] [])
             [("create", [Some (StubDocument "" [("name", JStr "y")] 1)]);
              ("replace", []); ("delete", [])]
             (StubRemote scenario_collection []) (RemoteError "scripted"));
    [done|done|done|by left|done].
Defined.

(** ** The lazily fetched singletons *)

Section RootFacts.
Context {Resource : Type}.
Implicit Types (w s : root Resource) (k : resource_kind).

Lemma count_kind_insert {A} k (l : list (resource_kind * A)) n k' a a' :
  l !! n = Some (k', a) ->
  length (filter (fun f => fst f = k) (<[n := (k', a')]> l))
  = length (filter (fun f => fst f = k) l).
Proof.
  revert n. induction l as [|[k0 a0] l IH]; intros [|n] Hn; simpl in *; try done.
  - injection Hn as -> ->. rewrite !filter_cons. simpl. by case_decide.
  - rewrite !filter_cons. simpl. case_decide; simpl; by rewrite (IH n).
Qed.

Lemma count_kind_snoc {A} k (l : list (resource_kind * A)) k' a :
  length (filter (fun f => fst f = k) (l ++ [(k', a)]))
  = length (filter (fun f => fst f = k) l) + (if decide (k' = k) then 1 else 0).
Proof.
  rewrite filter_app, length_app, filter_cons, filter_nil. simpl.
  by case_decide.
Qed.

Lemma getter_resolves k w :
  exists w' fetched, getter k w = (w', Resolved fetched).
Proof.
  unfold getter, bind, get_root, call_once, init_begin, bind, get_root, ret,
    set_onces, set_fetches, commit_syncing.
  destruct (value (resource k w)) as [v|]; [destruct (synced_truthy _)|];
    try (by eexists _, _);
    (destruct (init (resource k w)) as [f|]; [|by eexists _, _]);
    (destruct (match k with Account => true | Identity => truthy (identityId w) end);
     [|by eexists _, _]);
    simpl; (destruct (onces w !! f) as [[k' []]|]; simpl; by eexists _, _).
Qed.


Lemma quiet_snoc_insert k (l : list (resource_kind * fetch_status Resource)) n :
  (forall m, l !! m <> Some (k, InFlight)) ->
  n <> length l ->
  (l ++ [(k, InFlight)]) !! n <> Some (k, InFlight).
Proof.
  intros Hq Hn Hlook.
  destruct (decide (n < length l)).
  - rewrite lookup_app_l in Hlook by done. by apply (Hq n).
  - rewrite lookup_ge_None_2 in Hlook; [done|]. rewrite length_app. simpl. lia.
Qed.


(** *** What the operations leave alone *)

Lemma resource_set_resource k k' st w :
  resource k (set_resource k' st w) = if decide (k = k') then st else resource k w.
Proof. by destruct k, k'. Qed.

Lemma set_resource_frame k st w :
  mnemonic (set_resource k st w) = mnemonic w
  /\ identityId (set_resource k st w) = identityId w
  /\ onces (set_resource k st w) = onces w
  /\ fetches (set_resource k st w) = fetches w
  /\ stamps (set_resource k st w) = stamps w
  /\ listeners (set_resource k st w) = listeners w
  /\ debugged (set_resource k st w) = debugged w.
Proof. by destruct k. Qed.

(** The first call of a function made by [once]. *)
Lemma call_once_first f w k :
  onces w !! f = Some (OnceFn k false) ->
  fst (call_once f w) =
    set_resource k
      (SyncState (value (resource k w)) (init (resource k w))
         (synced (resource k w)) true)
      (Root (mnemonic w) (identityId w) (account w) (identity w)
         (identityRegistering w) (<[f := OnceFn k true]> (onces w))
         (fetches w ++ [(k, InFlight)]) (stamps w) (listeners w) (debugged w)).
Proof.
  intros Honce. unfold call_once, bind, get_root. rewrite Honce.
  by destruct w, k.
Qed.

(** A later call, or a call of no function. *)
Lemma call_once_again f w :
  onces w !! f <> None ->
  (forall k, onces w !! f <> Some (OnceFn k false)) ->
  fst (call_once f w) = w.
Proof.
  intros Hsome Hcalled. unfold call_once, bind, get_root.
  destruct (onces w !! f) as [[k []]|]; [done| |done].
  by destruct (Hcalled k).
Qed.

Lemma init_resume_returns k fetched now w :
  fst (init_resume k (Returns fetched) now w) =
    set_resource k (SyncState (Some fetched) None (Some now) false)
      (Root (mnemonic w) (identityId w) (account w) (identity w)
         (identityRegistering w) (onces w) (fetches w)
         (stamps w ++ [(k, now)])
         (match k with Account => S (listeners w) | Identity => listeners w end)
         (debugged w)).
Proof. by destruct w, k. Qed.

Lemma init_resume_throws k e now w :
  fst (init_resume k (Throws e) now w) =
    set_resource k
      (SyncState (value (resource k w)) (init (resource k w))
         (synced (resource k w)) false)
      (Root (mnemonic w) (identityId w) (account w) (identity w)
         (identityRegistering w) (onces w) (fetches w) (stamps w)
         (listeners w) (debugged w ++ [e])).
Proof. by destruct w, k. Qed.

(** Reading a getter changes the state only by calling the function in the
    [Init] field. *)
Lemma getter_state k w :
  fst (getter k w) = w
  \/ exists f, init (resource k w) = Some f /\ fst (getter k w) = fst (call_once f w).
Proof.
  unfold getter, bind, get_root.
  destruct (value (resource k w)) as [v|]; [destruct (synced_truthy _)|];
    try (by left);
    (destruct (init (resource k w)) as [f|]; [|by left]);
    (destruct (match k with Account => true | Identity => truthy (identityId w) end);
     [|by left]);
    right; exists f; (split; [done|]);
    by destruct (call_once f w) as [w' [[]| |]].
Qed.

(** With nothing fetched yet, the getter calls the function; the one of the
    identity only with a truthy [identityId]. *)
Lemma getter_calls k w f :
  value (resource k w) = None ->
  init (resource k w) = Some f ->
  (k = Identity -> truthy (identityId w) = true) ->
  fst (getter k w) = fst (call_once f w).
Proof.
  intros Hvalue Hinit Hid. unfold getter, bind, get_root.
  rewrite Hvalue, Hinit.
  replace (match k with Account => true | Identity => truthy (identityId w) end)
    with true by (destruct k; [done|by rewrite Hid]).
  by destruct (call_once f w) as [w' [[]| |]].
Qed.


(** *** The invariant of a function made by [once] *)

Lemma step_read k w : step (ReadGetter k) w = fst (getter k w).
Proof.
  unfold step, handle, bind.
  by destruct (getter_resolves k w) as (w' & fetched & ->).
Qed.

Lemma same_for_inv k f w0 w w' p :
  same_for k w w' -> trigger_inv k f w0 w p -> trigger_inv k f w0 w' p.
Proof.
  intros (Hres & Hid & Honces & Hlen & Hfetch & Hcalls & Hstamps) Hinv.
  destruct p as [| |res]; simpl in *;
    rewrite Hres, Honces, Hlen, Hcalls, Hstamps, ?Hid, ?Hfetch;
    unfold quiet in *; setoid_rewrite Hfetch; done.
Qed.

(** A fetch of another resource coming back. *)
Lemma settle_other k k' n res now w :
  k' <> k ->
  fetches w !! n = Some (k', InFlight) ->
  same_for k w (step (FetchSettles n res now) w).
Proof.
  intros Hne Hn. unfold step, handle, bind at 1, get_root. rewrite Hn.
  unfold bind, set_fetches.
  set (w1 := Root _ _ _ _ _ _ (<[n:=(k', Settled res)]> (fetches w)) _ _ _).
  destruct res as [fetched|e].
  - rewrite init_resume_returns.
    destruct (set_resource_frame k'
                (SyncState (Some fetched) None (Some now) false)
                (Root (mnemonic w1) (identityId w1) (account w1) (identity w1)
                   (identityRegistering w1) (onces w1) (fetches w1)
                   (stamps w1 ++ [(k', now)])
                   (match k' with Account => S (listeners w1) | Identity => listeners w1 end)
                   (debugged w1)))
      as (_ & Hid & Honces & Hfetches & Hstamps & _).
    unfold same_for, fetch_calls, synced_stamps.
    rewrite resource_set_resource, decide_False by done.
    rewrite Hid, Honces, Hfetches, Hstamps. subst w1. cbn.
    rewrite length_insert, (count_kind_insert _ _ _ _ _ _ Hn), count_kind_snoc.
    rewrite decide_False by done.
    split; [by destruct k|]. repeat (split; [done|]).
    split; [|split; [done|lia]].
    intros m st. destruct (decide (m = n)) as [->|Hm].
    + rewrite list_lookup_insert_eq by (by eapply lookup_lt_Some).
      rewrite Hn. split; intros [= ? ?]; done.
    + by rewrite list_lookup_insert_ne.
  - rewrite init_resume_throws.
    destruct (set_resource_frame k'
                (SyncState (value (resource k' w1)) (init (resource k' w1))
                   (synced (resource k' w1)) false)
                (Root (mnemonic w1) (identityId w1) (account w1) (identity w1)
                   (identityRegistering w1) (onces w1) (fetches w1)
                   (stamps w1) (listeners w1) (debugged w1 ++ [e])))
      as (_ & Hid & Honces & Hfetches & Hstamps & _).
    unfold same_for, fetch_calls, synced_stamps.
    rewrite resource_set_resource, decide_False by done.
    rewrite Hid, Honces, Hfetches, Hstamps. subst w1. cbn.
    rewrite length_insert, (count_kind_insert _ _ _ _ _ _ Hn).
    split; [by destruct k|]. repeat (split; [done|]).
    split; [|done].
    intros m st. destruct (decide (m = n)) as [->|Hm].
    + rewrite list_lookup_insert_eq by (by eapply lookup_lt_Some).
      rewrite Hn. split; intros [= ? ?]; done.
    + by rewrite list_lookup_insert_ne.
Qed.


Lemma settle_nothing n res now w :
  (forall k, fetches w !! n <> Some (k, InFlight)) ->
  step (FetchSettles n res now) w = w.
Proof.
  intros Hn. unfold step, handle, bind at 1, get_root.
  destruct (fetches w !! n) as [[k [|r]]|]; [|done..].
  by destruct (Hn k).
Qed.

(** The first call sends the fetch. *)
Lemma call_first_inv k f w0 w :
  init (resource k w0) = Some f ->
  trigger_inv k f w0 w Waiting ->
  trigger_inv k f w0 (fst (call_once f w)) Flying.
Proof.
  intros Harmed (Hres & Hid & Honce & Hlen & Hquiet & Hcalls & Hstamps).
  rewrite (call_once_first f w k Honce).
  match goal with |- context [set_resource k ?st ?w1] =>
    destruct (set_resource_frame k st w1) as (_ & _ & Honces' & Hfetches' & Hstamps' & _);
    pose proof (resource_set_resource k k st w1) as Hres'
  end.
  rewrite decide_True in Hres' by done.
  unfold trigger_inv, fetch_calls, synced_stamps.
  rewrite Hres', Honces', Hfetches', Hstamps'. cbn.
  rewrite Hres, length_app, count_kind_snoc, decide_True by done.
  split; [exact Harmed|].
  split; [by apply list_lookup_insert_eq, (lookup_lt_Some _ _ _ Honce)|].
  split; [simpl; lia|].
  split; [by rewrite <- Hlen, list_lookup_middle|].
  split; [intros n Hn; apply quiet_snoc_insert; [done|lia]|].
  split; [unfold fetch_calls in Hcalls; lia|exact Hstamps].
Qed.

(** The fetch of the function coming back. *)
Lemma settle_own_inv k f w0 w res now :
  trigger_inv k f w0 w Flying ->
  trigger_inv k f w0 (step (FetchSettles (length (fetches w0)) res now) w)
    (Landed res).
Proof.
  intros (Hinit & Honce & Hlen & Hn & Hothers & Hcalls & Hstamps).
  unfold step, handle, bind at 1, get_root. rewrite Hn.
  unfold bind, set_fetches.
  set (n0 := length (fetches w0)) in *.
  set (w1 := Root _ _ _ _ _ _ (<[n0:=(k, Settled res)]> (fetches w)) _ _ _).
  assert (Hquiet : quiet k w1).
  { intros m. subst w1. cbn. destruct (decide (m = n0)) as [->|Hm].
    - by rewrite list_lookup_insert_eq by (by eapply lookup_lt_Some).
    - rewrite list_lookup_insert_ne by done. by apply Hothers. }
  destruct res as [fetched|e].
  - rewrite init_resume_returns.
    match goal with |- context [set_resource k ?st ?w2] =>
      destruct (set_resource_frame k st w2) as (_ & _ & Honces' & Hfetches' & Hstamps' & _);
      pose proof (resource_set_resource k k st w2) as Hres'
    end.
    rewrite decide_True in Hres' by done.
    unfold trigger_inv, fetch_calls, synced_stamps, quiet.
    rewrite Hres', Honces', Hfetches', Hstamps'. subst w1. cbn.
    rewrite length_insert, (count_kind_insert _ _ _ _ _ _ Hn), count_kind_snoc.
    rewrite decide_True by done.
    split; [by right|]. split; [done|]. split; [done|].
    split; [by apply list_lookup_insert_eq, (lookup_lt_Some _ _ _ Hn)|].
    split; [apply Hquiet|].
    split; [unfold fetch_calls in Hcalls; lia|].
    unfold synced_stamps in Hstamps. by rewrite Hstamps.
  - rewrite init_resume_throws.
    match goal with |- context [set_resource k ?st ?w2] =>
      destruct (set_resource_frame k st w2) as (_ & _ & Honces' & Hfetches' & Hstamps' & _);
      pose proof (resource_set_resource k k st w2) as Hres'
    end.
    rewrite decide_True in Hres' by done.
    unfold trigger_inv, fetch_calls, synced_stamps, quiet.
    rewrite Hres', Honces', Hfetches', Hstamps'. subst w1. cbn.
    rewrite length_insert, (count_kind_insert _ _ _ _ _ _ Hn).
    split; [by left|]. split; [done|]. split; [done|].
    split; [by apply list_lookup_insert_eq, (lookup_lt_Some _ _ _ Hn)|].
    split; [apply Hquiet|].
    split; [unfold fetch_calls in Hcalls; lia|].
    unfold synced_stamps in Hstamps. by rewrite Hstamps, Nat.add_0_r.
Qed.


Lemma call_inv k f w0 w p :
  init (resource k w0) = Some f ->
  trigger_inv k f w0 w p ->
  exists p',
    trigger_inv k f w0 (fst (call_once f w)) p'
    /\ p' <> Waiting.
Proof.
  intros Harmed Hinv. destruct p as [| |res].
  - exists Flying. split; [by apply call_first_inv|done].
  - exists Flying. split; [|done].
    pose proof Hinv as (_ & Honce & _). rewrite call_once_again; [done|..];
      rewrite Honce; done.
  - exists (Landed res). split; [|done].
    pose proof Hinv as (_ & Honce & _). rewrite call_once_again; [done|..];
      rewrite Honce; done.
Qed.

Lemma read_inv k f w0 w p :
  init (resource k w0) = Some f ->
  trigger_inv k f w0 w p ->
  exists p',
    trigger_inv k f w0 (step (ReadGetter k) w) p'
    /\ (p <> Waiting -> p' <> Waiting)
    /\ (value (resource k w0) = None ->
        (k = Identity -> truthy (identityId w0) = true) ->
        p' <> Waiting).
Proof.
  intros Harmed Hinv. rewrite step_read.
  assert (Hinit : init (resource k w) = Some f \/ init (resource k w) = None).
  { destruct p as [| |res]; simpl in Hinv.
    - destruct Hinv as (-> & _). by left.
    - destruct Hinv as (? & _). by left.
    - by destruct Hinv as (? & _). }
  destruct p as [| |res].
  - destruct (decide (value (resource k w0) = None
                      /\ (k = Identity -> truthy (identityId w0) = true)))
      as [[Hvalue Hid]|Hno].
    + destruct Hinv as (Hres & Hid' & Hrest).
      rewrite (getter_calls k w f); [| by rewrite Hres | by rewrite Hres
                                     | by rewrite Hid'].
      destruct (call_inv k f w0 w Waiting) as (p' & Hinv' & Hp'); [done|by split|].
      exists p'. by repeat split.
    + destruct (getter_state k w) as [->|(f' & Hf' & ->)].
      * exists Waiting. split; [done|]. split; [done|]. intros ? ?. by destruct Hno.
      * assert (f' = f) as -> by (destruct Hinit; congruence).
        destruct (call_inv k f w0 w Waiting) as (p' & Hinv' & Hp'); [done..|].
        exists p'. by repeat split.
  - exists Flying. split; [|done].
    destruct (getter_state k w) as [->|(f' & Hf' & ->)]; [done|].
    assert (f' = f) as -> by (destruct Hinit; congruence).
    pose proof Hinv as (? & Honce & ?). rewrite call_once_again; [done|..];
      rewrite Honce; done.
  - exists (Landed res). split; [|done].
    destruct (getter_state k w) as [->|(f' & Hf' & ->)]; [done|].
    assert (f' = f) as -> by (destruct Hinit; congruence).
    pose proof Hinv as (? & Honce & ?). rewrite call_once_again; [done|..];
      rewrite Honce; done.
Qed.

Lemma settle_inv k f w0 w p n res now :
  trigger_inv k f w0 w p ->
  exists p',
    trigger_inv k f w0 (step (FetchSettles n res now) w) p'
    /\ (p <> Waiting -> p' <> Waiting).
Proof.
  intros Hinv.
  destruct (fetches w !! n) as [[k' [|r]]|] eqn:Hn.
  2,3: exists p; split; [|done]; rewrite settle_nothing; [done|];
       intros k0; by rewrite Hn.
  destruct (decide (k' = k)) as [->|Hne].
  - destruct p as [| |res'].
    + destruct Hinv as (_ & _ & _ & _ & Hquiet & _). by destruct (Hquiet n).
    + exists (Landed res). split; [|done].
      assert (n = length (fetches w0)) as ->.
      { destruct Hinv as (_ & _ & _ & _ & Hothers & _).
        destruct (decide (n = length (fetches w0))) as [|Hne]; [done|].
        by destruct (Hothers n Hne). }
      by apply settle_own_inv.
    + destruct Hinv as (_ & _ & _ & _ & Hquiet & _). by destruct (Hquiet n).
  - exists p. split; [|done].
    eapply same_for_inv; [|done]. by eapply settle_other.
Qed.

(** Every event about [k] and [f] keeps the invariant; a call of [f], and a
    read of the getter while nothing was fetched, leave [Waiting]. *)
Lemma step_inv k f w0 w p e :
  about k f e ->
  init (resource k w0) = Some f ->
  trigger_inv k f w0 w p ->
  exists p',
    trigger_inv k f w0 (step e w) p'
    /\ (p <> Waiting -> p' <> Waiting)
    /\ (e = CallTrigger f -> p' <> Waiting)
    /\ (e = ReadGetter k ->
        value (resource k w0) = None ->
        (k = Identity -> truthy (identityId w0) = true) ->
        p' <> Waiting).
Proof.
  intros Habout Harmed Hinv. destruct e as [|k'|f'|n res now|now]; simpl in Habout;
    try done; subst.
  - destruct (read_inv k f w0 w p) as (p' & ? & ? & ?); [done..|].
    exists p'. by repeat split.
  - destruct (call_inv k f w0 w p) as (p' & ? & ?); [done..|].
    exists p'. by repeat split.
  - destruct (settle_inv k f w0 w p n res now) as (p' & ? & ?); [done|].
    exists p'. by repeat split.
Qed.

Lemma run_inv k f w0 events :
  forall w p,
  Forall (about k f) events ->
  init (resource k w0) = Some f ->
  trigger_inv k f w0 w p ->
  exists p',
    trigger_inv k f w0 (run events w) p'
    /\ (p <> Waiting -> p' <> Waiting)
    /\ (CallTrigger f ∈ events -> p' <> Waiting)
    /\ (ReadGetter k ∈ events ->
        value (resource k w0) = None ->
        (k = Identity -> truthy (identityId w0) = true) ->
        p' <> Waiting).
Proof.
  induction events as [|e events IH]; intros w p Hall Harmed Hinv.
  - exists p. split; [done|]. split; [done|].
    split; intros Hin; by apply elem_of_nil in Hin.
  - apply Forall_cons in Hall as [He Hall].
    destruct (step_inv k f w0 w p e He Harmed Hinv) as (p1 & Hinv1 & Hkeep1 & Hcall1 & Hread1).
    destruct (IH (step e w) p1 Hall Harmed Hinv1) as (p2 & Hinv2 & Hkeep2 & Hcall2 & Hread2).
    exists p2. split; [done|]. split; [auto|].
    split.
    + intros [Heq|Hin]%elem_of_cons; [|by auto].
      apply Hkeep2, Hcall1. by symmetry.
    + intros [Heq|Hin]%elem_of_cons Hvalue Hid; [|by auto].
      apply Hkeep2, Hread1; [by symmetry|done..].
Qed.


Lemma read_keeps_init k k' w :
  init (resource k' (step (ReadGetter k) w)) = init (resource k' w).
Proof.
  rewrite step_read.
  destruct (getter_state k w) as [->|(f & Hf & ->)]; [done|].
  destruct (onces w !! f) as [[k0 []]|] eqn:Honce.
  - rewrite call_once_again; [done|..]; by rewrite Honce.
  - rewrite (call_once_first f w k0 Honce), resource_set_resource.
    case_decide as Hk; [subst k'|]; by destruct k0.
  - unfold call_once, bind, get_root. by rewrite Honce.
Qed.

Lemma read_keeps_onces k w :
  length (onces (step (ReadGetter k) w)) = length (onces w).
Proof.
  rewrite step_read.
  destruct (getter_state k w) as [->|(f & Hf & ->)]; [done|].
  destruct (onces w !! f) as [[k0 []]|] eqn:Honce.
  - rewrite call_once_again; [done|..]; by rewrite Honce.
  - rewrite (call_once_first f w k0 Honce).
    match goal with |- context [set_resource k0 ?st ?w1] =>
      destruct (set_resource_frame k0 st w1) as (_ & _ & -> & _)
    end.
    cbn. by rewrite length_insert.
  - unfold call_once, bind, get_root. by rewrite Honce.
Qed.

(** C8.  Take a function [f] made by [once] that sits uncalled in
    the [Init] field of a resource [k] with no fetch of [k] in flight, and
    any run of events that call [f], read the getter of [k] or let fetches
    come back.  If [f] is called at least once, or the getter is read at
    least once while nothing was fetched, then exactly one fetch of [k] is
    made, however many calls and reads there are, and [Date.now()] goes to
    the [Synced] field of [k] once if that fetch came back with the resource
    and not at all if it threw or is still in flight.  Reading a getter never
    changes what is in an [Init] field, which holds one function or none,
    and makes no new function. *)
Theorem trigger_fires_once k f (w : root Resource) events :
  armed k f w ->
  quiet k w ->
  Forall (about k f) events ->
  CallTrigger f ∈ events
  \/ (ReadGetter k ∈ events
      /\ value (resource k w) = None
      /\ (k = Identity -> truthy (identityId w) = true)) ->
  fetch_calls k (run events w) = fetch_calls k w + 1
  /\ (exists st,
        fetches (run events w) !! length (fetches w) = Some (k, st)
        /\ synced_stamps k (run events w) = synced_stamps k w + came_back st)
  /\ (forall k' k'' w',
        init (resource k'' (step (ReadGetter k') w')) = init (resource k'' w')
        /\ length (onces (step (ReadGetter k') w')) = length (onces w')).
Proof.
  intros [Hinit Honce] Hquiet Hall Hfires.
  destruct (run_inv k f w events w Waiting Hall Hinit)
    as (p & Hinv & _ & Hcall & Hread); [by repeat split|].
  assert (Hp : p <> Waiting).
  { destruct Hfires as [Hin|(Hin & Hvalue & Hid)]; [by apply Hcall|by apply Hread]. }
  split; [|split; [|intros; split; [apply read_keeps_init|apply read_keeps_onces]]].
  - destruct p as [| |res]; [done|..];
      by destruct Hinv as (_ & _ & _ & _ & _ & Hcalls & _).
  - destruct p as [| |res]; [done|..].
    + destruct Hinv as (_ & _ & _ & Hn & _ & _ & Hstamps).
      exists InFlight. split; [done|]. simpl. lia.
    + destruct Hinv as (_ & _ & _ & Hn & _ & _ & Hstamps).
      by exists (Settled res).
Qed.

End RootFacts.

Lemma trigger_fires_once_witness :
  fetch_calls Account (run (reads_and_calls (Returns "wallet")) armed_root) = 1
  /\ synced_stamps Account (run (reads_and_calls (Returns "wallet")) armed_root) = 1.
Proof.
  destruct (trigger_fires_once Account 0 armed_root
              (reads_and_calls (Returns "wallet")))
    as (Hcalls & (st & Hst & Hstamps) & _).
  - by split.
  - intros n. by vm_compute.
  - by repeat constructor.
  - left. unfold reads_and_calls. rewrite !elem_of_cons. auto.
  - split; [exact Hcalls|]. rewrite Hstamps.
    vm_compute in Hst. by injection Hst as <-.
Defined.

(** The fetch of the account throws: five reads and calls, one fetch, and no
    [Date.now()] in [accountSynced]. *)
Lemma trigger_without_stamp :
  fetch_calls Account
    (run (reads_and_calls (Throws (RemoteError "offline"))) armed_root) = 1
  /\ synced_stamps Account
       (run (reads_and_calls (Throws (RemoteError "offline"))) armed_root) = 0
  /\ synced_stamps Account
       (run (reads_and_calls (Throws (RemoteError "offline"))) armed_root) <> 1.
Proof. by vm_compute. Qed.

(** The query of [all] throws: [all] rejects. *)
Lemma all_rejects_example :
  snd (all 1 [] (stub_store scenario_collection [true]))
  = Rejected (RemoteError "scripted").
Proof. by vm_compute. Qed.

(** C9.  No exception leaves [broadcast], [multiple], [create],
    [replace], [delete] or the getters of the two resources, whatever the
    remote does: [broadcast] and [multiple] settle only by resolving,
    [broadcast] on an operation set without an item of 4 KB or more does
    resolve, [create], [replace] and [delete] always resolve, and so do the
    getters.  [all] and [one] have no handler: they reject when the query
    throws, and [one] also when no document matches. *)
Theorem exceptions_stop_at_handlers :
  (forall (P : Platform) fuel s,
     (forall payload e, snd (broadcast fuel payload s) <> Rejected e)
     /\ (forall payload e, snd (multiple fuel payload s) <> Rejected e)
     /\ (forall payload,
           OperationSet payload ->
           Forall (fun i => (item_length i < MAX_KILOBYTES_PER_PAYLOAD * 1024)%N)
                  (visit_order payload) ->
           length (visit_order payload) < fuel ->
           exists s' accepted, broadcast fuel payload s = (s', Resolved accepted))
     /\ (forall payload, snd (create (S fuel) payload s) = Resolved tt)
     /\ (forall payload, snd (replace (S fuel) payload s) = Resolved tt)
     /\ (forall payload, snd (delete (S fuel) payload s) = Resolved tt)
     /\ (forall allQuery r e,
           documents_get (remote s) (PageQuery allQuery 0 MAX_DOCUMENTS_PER_QUERY)
           = (r, Throws e) ->
           snd (all (S fuel) allQuery s) = Rejected e)
     /\ (forall id r e,
           documents_get (remote s) (IdQuery (default_null id)) = (r, Throws e) ->
           snd (one id s) = Rejected e)
     /\ (forall id r,
           documents_get (remote s) (IdQuery (default_null id)) = (r, Returns []) ->
           snd (one id s) = Rejected (TypeError "payload.toJSON")))
  /\ (forall (Resource : Type) k (w : root Resource),
        exists w' fetched, getter k w = (w', Resolved fetched)).
Proof.
  split.
  - intros P fuel s.
    split; [intros; apply broadcast_never_rejects|].
    split; [intros; apply multiple_never_rejects|].
    split; [intros; by apply broadcast_resolves|].
    split; [intros; apply create_resolves|].
    split; [intros; apply replace_resolves|].
    split; [intros; apply delete_resolves|].
    split; [intros; by eapply all_rejects|].
    split.
    + intros id r e Hget. by rewrite (one_throws _ _ _ _ Hget).
    + intros id r Hget. by rewrite (one_missing _ _ _ Hget).
  - intros Resource k w. apply getter_resolves.
Qed.

Lemma exceptions_stop_at_handlers_witness :
  snd (one (JStr "Z") (stub_store scenario_collection []))
  = Rejected (TypeError "payload.toJSON")
  /\ exists s' accepted,
       broadcast 26 three_batches (stub_store [] [false; true])
       = (s', Resolved accepted).
Proof.
  destruct exceptions_stop_at_handlers as [Hdocs _].
  destruct (Hdocs stub_platform 26 (stub_store [] [false; true]))
    as (_ & _ & Hresolves & _).
  destruct (Hdocs stub_platform 0 (stub_store scenario_collection []))
    as (_ & _ & _ & _ & _ & _ & _ & _ & Hmissing).
  split.
  - by apply (Hmissing (JStr "Z") (StubRemote scenario_collection [])).
  - apply Hresolves.
    + unfold OperationSet. reflexivity.
    + apply (bool_decide_unpack _). by vm_compute.
    + vm_compute. lia.
Defined.

(** ** Further facts about the regulator *)

Section BudgetFacts.
Context {Item : Type}.
Variable encoded_length : Item -> N.

Lemma take_cut_within bytes count (items : list Item) :
  length (take (cut_from encoded_length bytes count items) items)
  = cut_from encoded_length bytes count items
  /\ (cut_from encoded_length bytes count items = 0
      \/ within_budgets
           (bytes + total_bytes encoded_length
                      (take (cut_from encoded_length bytes count items) items))
           (count + cut_from encoded_length bytes count items) = true).
Proof.
  pose proof (cut_from_le encoded_length bytes count items) as Hle.
  split; [rewrite length_take; lia|].
  destruct (cut_from encoded_length bytes count items) as [|c] eqn:Hc; [by left|].
  right. rewrite <- Hc.
  assert (Hlt : c < cut_from encoded_length bytes count items) by lia.
  apply cut_from_spec in Hlt; [|lia]. by rewrite Hc.
Qed.

(** What [regulatePayload] includes fits both budgets. *)
Lemma included_fits (payload : obj (list Item)) :
  NoDup (keys payload) ->
  length (visit_order (fst (regulatePayload encoded_length payload)))
  <= MAX_DOCUMENTS_PER_PAYLOAD
  /\ (total_bytes encoded_length
        (visit_order (fst (regulatePayload encoded_length payload)))
      < MAX_KILOBYTES_PER_PAYLOAD * 1024)%N.
Proof.
  intros Hnd. unfold regulatePayload. rewrite regulate_split by done.
  cbn [included fst]. rewrite visit_order_take_entries. unfold cut.
  destruct (take_cut_within 0%N 0 (visit_order payload)) as [Hlen [Hzero|Hfit]].
  - rewrite Hzero, take_0. simpl. unfold MAX_DOCUMENTS_PER_PAYLOAD,
      MAX_KILOBYTES_PER_PAYLOAD. lia.
  - rewrite Hlen. rewrite N.add_0_l, Nat.add_0_l in Hfit. budgets. lia.
Qed.

Lemma take_entries_twice c (payload : obj (list Item)) :
  take_entries c (take_entries c payload) = take_entries c payload.
Proof.
  revert c. induction payload as [|[k items] rest IH]; intros c; [done|].
  cbn [take_entries]. rewrite take_take, Nat.min_id, length_take.
  f_equal. destruct (decide (c <= length items)).
  - replace (c - c `min` length items) with 0 by lia.
    replace (c - length items) with 0 by lia. apply IH.
  - replace (c - c `min` length items) with (c - length items) by lia. apply IH.
Qed.

Lemma drop_take_entries c (payload : obj (list Item)) :
  drop_entries c (take_entries c payload) = blank payload.
Proof.
  revert c. induction payload as [|[k items] rest IH]; intros c; [done|].
  cbn [take_entries drop_entries blank map fst]. rewrite length_take.
  rewrite drop_ge by (rewrite length_take; lia).
  f_equal. destruct (decide (c <= length items)).
  - replace (c - c `min` length items) with 0 by lia.
    replace (c - length items) with 0 by lia. apply IH.
  - replace (c - c `min` length items) with (c - length items) by lia. apply IH.
Qed.

(** X1.  What [regulatePayload] includes fits both budgets: at most ten
    items, of less than 4 KB together. *)
Theorem regulatePayload_included_fits (payload : obj (list Item)) :
  NoDup (keys payload) ->
  length (visit_order (fst (regulatePayload encoded_length payload)))
  <= MAX_DOCUMENTS_PER_PAYLOAD
  /\ (total_bytes encoded_length
        (visit_order (fst (regulatePayload encoded_length payload)))
      < MAX_KILOBYTES_PER_PAYLOAD * 1024)%N.
Proof. apply included_fits. Qed.

(** X2.  Regulating what was included includes all of it again and leaves
    nothing over: a batch is never split a second time. *)
Theorem regulatePayload_included_again (payload : obj (list Item)) :
  NoDup (keys payload) ->
  regulatePayload encoded_length (fst (regulatePayload encoded_length payload))
  = (fst (regulatePayload encoded_length payload), blank payload).
Proof.
  intros Hnd. unfold regulatePayload at 2 3. rewrite regulate_split by done.
  cbn [included fst]. unfold regulatePayload.
  rewrite regulate_split by (by rewrite keys_take_entries).
  cbn [included remainder].
  assert (Hcut : cut encoded_length
                   (take_entries (cut encoded_length payload) payload)
                 = cut encoded_length payload).
  { unfold cut. rewrite visit_order_take_entries. apply cut_from_take. }
  by rewrite Hcut, take_entries_twice, drop_take_entries.
Qed.

End BudgetFacts.

Lemma regulatePayload_included_fits_witness :
  length (visit_order (fst (regulatePayload (fun n => n) sample_payload))) <= 10
  /\ (total_bytes (fun n => n)
        (visit_order (fst (regulatePayload (fun n => n) sample_payload)))
      < 4096)%N.
Proof.
  apply (regulatePayload_included_fits (fun n => n) sample_payload).
  apply (bool_decide_unpack _). by vm_compute.
Defined.

Lemma regulatePayload_included_again_witness :
  regulatePayload (fun n => n) [("create", [1500; 1500]%N); ("replace", [])]
  = ([("create", [1500; 1500]%N); ("replace", [])],
     [("create", []); ("replace", [])]).
Proof.
  apply (regulatePayload_included_again (fun n => n) sample_payload).
  apply (bool_decide_unpack _). by vm_compute.
Defined.

(** ** Further facts about the broadcaster *)

Section DeliveryFacts.
Context `{Platform}.

Lemma cuts_fit fuel :
  forall (payload : obj (list item)) batches,
  NoDup (keys payload) ->
  cuts fuel payload = Some batches ->
  Forall (fun batch =>
            length (visit_order batch) <= MAX_DOCUMENTS_PER_PAYLOAD
            /\ (total_bytes item_length (visit_order batch)
                < MAX_KILOBYTES_PER_PAYLOAD * 1024)%N)
         batches.
Proof.
  induction fuel as [|fuel IH]; intros payload batches Hnd Hcuts; [done|].
  cbn [cuts] in Hcuts.
  pose proof (included_fits item_length payload Hnd) as Hfits.
  assert (Hkeys : NoDup (keys (snd (regulatePayload item_length payload)))).
  { unfold regulatePayload. rewrite regulate_split by done. simpl.
    by rewrite keys_drop_entries. }
  destruct (regulatePayload item_length payload) as [included remainder].
  cbn [fst snd] in *.
  destruct (any_nonempty included); destruct (any_nonempty remainder).
  - destruct (cuts fuel remainder) as [rest|] eqn:Hrest; [|done].
    injection Hcuts as <-. constructor; [done|]. by apply (IH remainder).
  - injection Hcuts as <-. constructor; [done|constructor].
  - destruct (cuts fuel remainder) as [rest|] eqn:Hrest; [|done].
    injection Hcuts as <-. by apply (IH remainder).
  - injection Hcuts as <-. constructor.
Qed.

Lemma submit_all_accepted good (batches : list (obj (list item))) :
  accepts good ->
  forall s, good (remote s) ->
  exists s', submit_all batches s = (s', Resolved true) /\ good (remote s').
Proof.
  intros Haccepts. induction batches as [|batch batches IH]; intros s Hgood.
  - by exists s.
  - cbn [submit_all]. unfold bind, try_catch, client_call, ret.
    destruct (Haccepts (remote s) batch Hgood) as (r' & -> & Hgood'). simpl.
    by apply IH.
Qed.

(** X3.  When the remote accepts every batch and no item has 4 KB or more,
    [broadcast] on an operation set returns [true]; the calls it made are
    batches that each hold between one and ten items of less than 4 KB
    together, and that, one after the other, are the items of the payload in
    visit order: every item is submitted exactly once.  The mirror is not
    touched. *)
Theorem broadcast_delivers good fuel (payload : obj (list item)) s :
  accepts good ->
  good (remote s) ->
  OperationSet payload ->
  Forall (fun i => (item_length i < MAX_KILOBYTES_PER_PAYLOAD * 1024)%N)
         (visit_order payload) ->
  length (visit_order payload) < fuel ->
  exists s' batches,
    broadcast fuel payload s = (s', Resolved true)
    /\ calls s' = calls s ++ map Broadcast batches
    /\ concat (map visit_order batches) = visit_order payload
    /\ Forall (fun batch =>
                 0 < length (visit_order batch) <= MAX_DOCUMENTS_PER_PAYLOAD
                 /\ (total_bytes item_length (visit_order batch)
                     < MAX_KILOBYTES_PER_PAYLOAD * 1024)%N)
              batches
    /\ documents s' = documents s
    /\ console s' = console s.
Proof.
  intros Haccepts Hgood Hop Hsmall Hfuel.
  pose proof (operation_set_NoDup _ Hop) as Hnd.
  destruct (cuts_terminates fuel payload Hnd Hsmall Hfuel) as [batches Hcuts].
  destruct (submit_all_accepted good batches Haccepts s Hgood) as (s' & Hsent & _).
  destruct (cuts_in_order fuel payload batches Hnd Hcuts) as [Hall Hne].
  pose proof (cuts_fit fuel payload batches Hnd Hcuts) as Hfit.
  destruct (submit_all_calls batches s s' Hsent) as (Hcalls & Hdocs & Hconsole).
  exists s', batches.
  split; [by rewrite (broadcast_cuts fuel payload batches)|].
  split; [done|]. split; [done|]. split; [|done].
  apply Forall_forall. intros batch Hin.
  rewrite Forall_forall in Hne, Hfit.
  destruct (Hfit batch Hin) as [Hcount Hbytes].
  specialize (Hne batch Hin). apply any_nonempty_true in Hne.
  split; [|done]. split; [|done].
  destruct (visit_order batch); [done|simpl; lia].
Qed.

(** X4.  An operation set whose three arrays are empty is not sent:
    [broadcast] returns [true] and calls nothing. *)
Theorem broadcast_nothing fuel (payload : obj (list item)) s :
  OperationSet payload ->
  visit_order payload = [] ->
  broadcast (S fuel) payload s = (s, Resolved true).
Proof.
  intros Hop Hempty. rewrite broadcast_step by done. cbn zeta.
  pose proof (operation_set_NoDup _ Hop) as Hnd.
  unfold regulatePayload. rewrite regulate_split by done. cbn [included remainder fst snd].
  assert (Hinc : any_nonempty (take_entries (cut item_length payload) payload) = false).
  { apply not_true_iff_false. rewrite any_nonempty_true.
    rewrite visit_order_take_entries, Hempty, take_nil. intros Hn. by apply Hn. }
  assert (Hrem : any_nonempty (drop_entries (cut item_length payload) payload) = false).
  { apply not_true_iff_false. rewrite any_nonempty_true.
    rewrite visit_order_drop_entries, Hempty, drop_nil. intros Hn. by apply Hn. }
  by rewrite Hinc, Hrem.
Qed.

End DeliveryFacts.

Lemma broadcast_delivers_witness :
  exists s' batches,
    broadcast 26 three_batches (stub_store [] []) = (s', Resolved true)
    /\ calls s' = map Broadcast batches
    /\ concat (map visit_order batches) = visit_order three_batches.
Proof.
  destruct (@broadcast_delivers stub_platform (fun r => script r = []) 26
              three_batches (stub_store [] []))
    as (s' & batches & Hsent & Hcalls & Hall & _).
  - intros r batch Hr. exists r. simpl. unfold stub_respond. by rewrite Hr.
  - done.
  - unfold OperationSet. reflexivity.
  - apply (bool_decide_unpack _). by vm_compute.
  - vm_compute. lia.
  - exists s', batches. split; [exact Hsent|]. split; [exact Hcalls|exact Hall].
Defined.

Lemma broadcast_nothing_witness :
  broadcast 1 no_documents (stub_store [] [true]) = (stub_store [] [true], Resolved true).
Proof.
  apply (@broadcast_nothing stub_platform 0 no_documents (stub_store [] [true])).
  - unfold OperationSet. reflexivity.
  - done.
Defined.

(** ** Objects that are not operation sets *)

Lemma obj_get_absent {V} (k : string) (o : obj V) :
  obj_get k o = None <-> k ∉ keys o.
Proof.
  induction o as [|[k' v'] o IH]; simpl.
  - split; [intros _; apply not_elem_of_nil | done].
  - destruct (String.eqb_spec k k') as [->|Hne].
    + split; [done|]. intros Hk. exfalso. apply Hk. left.
    + rewrite IH, not_elem_of_cons. tauto.
Qed.

Section MissingArrays.
Context `{Platform}.

(** The test of [broadcast] on an object that lacks one of the three arrays:
    it is true or it throws. *)
Lemma any_length_missing (o : obj (list item)) s :
  ~ ("create" ∈ keys o /\ "replace" ∈ keys o /\ "delete" ∈ keys o) ->
  any_length o s = (s, Resolved true)
  \/ exists e, any_length o s = (s, Rejected e).
Proof.
  intros Hmissing. unfold any_length, array_length, bind, ret, throw.
  destruct (obj_get "create" o) as [c|] eqn:Hc; [|by eauto].
  destruct (0 <? length c); [by left|].
  destruct (obj_get "replace" o) as [r|] eqn:Hr; [|by eauto].
  destruct (0 <? length r); [by left|].
  destruct (obj_get "delete" o) as [d|] eqn:Hd; [|by eauto].
  exfalso. apply Hmissing.
  repeat split; apply dec_stable; intros Hn; apply obj_get_absent in Hn; congruence.
Qed.

Lemma regulatePayload_keys (payload : obj (list item)) :
  NoDup (keys payload) ->
  keys (fst (regulatePayload item_length payload)) = keys payload
  /\ keys (snd (regulatePayload item_length payload)) = keys payload.
Proof.
  intros Hnd. unfold regulatePayload. rewrite regulate_split by done. simpl.
  by rewrite keys_take_entries, keys_drop_entries.
Qed.

Lemma broadcast_missing_never_true fuel :
  forall (payload : obj (list item)) s,
  NoDup (keys payload) ->
  ~ ("create" ∈ keys payload /\ "replace" ∈ keys payload /\ "delete" ∈ keys payload) ->
  snd (broadcast fuel payload s) <> Resolved true.
Proof.
  induction fuel as [|fuel IH]; intros payload s Hnd Hmissing; [done|].
  destruct (regulatePayload_keys payload Hnd) as [Hki Hkr].
  cbn [broadcast]. unfold broadcast_try.
  destruct (regulatePayload item_length payload) as [included remainder].
  cbn [fst snd] in *.
  unfold bind at 1, try_catch, bind at 1, bind at 1.
  destruct (any_length_missing included s) as [->|(e & ->)];
    [by rewrite Hki| |done].
  unfold bind at 1, client_call.
  destruct (documents_broadcast (remote s) included) as [r [[]|e]]; simpl; [|done].
  unfold bind at 1.
  match goal with |- context [any_length remainder ?s1] =>
    destruct (any_length_missing remainder s1) as [->|(e & ->)];
      [by rewrite Hkr| |done]
  end.
  simpl. apply IH; by rewrite Hkr.
Qed.

Lemma broadcast_without_create fuel (payload : obj (list item)) s :
  NoDup (keys payload) ->
  "create" ∉ keys payload ->
  broadcast (S fuel) payload s =
    (Store (remote s) (documents s) (calls s)
       (console s ++ [TypeError "length of undefined create"]),
     Resolved false).
Proof.
  intros Hnd Hcreate.
  destruct (regulatePayload_keys payload Hnd) as [Hki _].
  cbn [broadcast]. unfold broadcast_try.
  destruct (regulatePayload item_length payload) as [included remainder].
  cbn [fst] in Hki. rewrite <- Hki in Hcreate. apply obj_get_absent in Hcreate.
  unfold bind, try_catch, any_length, array_length. by rewrite Hcreate.
Qed.

(** X5.  [broadcast] on an object that lacks one of the arrays [create],
    [replace] and [delete] never returns [true], whatever the remote does;
    when it is [create] that is missing, nothing is sent: the [TypeError] is
    logged and [false] returned. *)
Theorem broadcast_needs_three_arrays (payload : obj (list item)) :
  NoDup (keys payload) ->
  ~ ("create" ∈ keys payload /\ "replace" ∈ keys payload /\ "delete" ∈ keys payload) ->
  (forall fuel s, snd (broadcast fuel payload s) <> Resolved true)
  /\ ("create" ∉ keys payload ->
      forall fuel s,
        broadcast (S fuel) payload s =
          (Store (remote s) (documents s) (calls s)
             (console s ++ [TypeError "length of undefined create"]),
           Resolved false)).
Proof.
  intros Hnd Hmissing. split.
  - intros fuel s. by apply broadcast_missing_never_true.
  - intros Hcreate fuel s. by apply broadcast_without_create.
Qed.

End MissingArrays.

Lemma broadcast_needs_three_arrays_witness :
  snd (broadcast 3
         [("create", [Some (StubDocument "A" [] 1)]); ("delete", [])]
         (stub_store [] []))
  <> Resolved true.
Proof.
  destruct (@broadcast_needs_three_arrays stub_platform
              [("create", [Some (StubDocument "A" [] 1)]); ("delete", [])])
    as [Hnever _].
  - apply (bool_decide_unpack _). by vm_compute.
  - intros (_ & Hreplace & _). simpl in Hreplace.
    rewrite !elem_of_cons, elem_of_nil in Hreplace.
    by destruct Hreplace as [|[|]].
  - apply Hnever.
Defined.

(** ** The actions [create], [replace] and [delete] *)

Section SingleActions.
Context `{Platform}.

(** [broadcast] on the object [{ create: [i] }] that [create] passes. *)
Lemma broadcast_lone_create fuel (i : item) s :
  broadcast (S fuel) [("create", [i])] s =
    if within_budgets (item_length i) 1 then
      match documents_broadcast (remote s) [("create", [i])] with
      | (r, Returns _) =>
          (Store r (documents s) (calls s ++ [Broadcast [("create", [i])]])
             (console s ++ [TypeError "length of undefined replace"]),
           Resolved false)
      | (r, Throws e) =>
          (Store r (documents s) (calls s ++ [Broadcast [("create", [i])]])
             (console s ++ [e]),
           Resolved false)
      end
    else
      (Store (remote s) (documents s) (calls s)
         (console s ++ [TypeError "length of undefined replace"]),
       Resolved false).
Proof.
  cbn [broadcast]. unfold broadcast_try. rewrite regulatePayload_lone.
  destruct (within_budgets _ _);
    unfold bind, try_catch, any_length, array_length, client_call, throw, ret,
      console_debug; simpl; [|done].
  by destruct (documents_broadcast (remote s) _) as [r [[]|e]].
Qed.

(** [broadcast] on the objects [{ replace: [i] }] and [{ delete: [i] }]. *)
Lemma broadcast_lone_other fuel (k : string) (i : item) s :
  k <> "create" ->
  broadcast (S fuel) [(k, [i])] s =
    (Store (remote s) (documents s) (calls s)
       (console s ++ [TypeError "length of undefined create"]),
     Resolved false).
Proof.
  intros Hk. apply broadcast_without_create; simpl.
  - apply NoDup_singleton.
  - rewrite elem_of_cons, elem_of_nil. intros [?|[]]. congruence.
Qed.

Lemma compose_keeps_documents payload : keeps_documents (compose payload).
Proof.
  intros s. unfold compose, try_catch, bind, client_call, console_debug.
  by destruct (documents_create (remote s) payload) as [r [d|e]].
Qed.

(** X6.  [create] never writes to the mirror, whatever the remote answers:
    the [broadcast] it dispatches on [{ create: [created] }] cannot return
    [true]. *)
Theorem create_never_commits fuel payload s :
  getters_all (fst (create fuel payload s)) = getters_all s.
Proof.
  unfold getters_all, create, try_catch. unfold bind at 1.
  pose proof (compose_keeps_documents payload s) as Hkeep.
  destruct (compose_resolves payload s) as (s1 & composed & Hcomposed).
  rewrite Hcomposed in Hkeep |- *. simpl in Hkeep.
  unfold bind at 1. destruct fuel as [|fuel]; [done|].
  rewrite broadcast_lone_create.
  destruct (within_budgets _ _); [|done].
  by destruct (documents_broadcast (remote s1) _) as [r [[]|e]].
Qed.

(** X7.  When the remote composes a document of less than 4 KB and accepts
    its broadcast, [create] has sent the document, logged the [TypeError] of
    reading [remainder.replace.length], and left the mirror without it. *)
Theorem create_sends_unmirrored fuel payload s r1 r2 created :
  documents_create (remote s) payload = (r1, Returns created) ->
  (document_length created < MAX_KILOBYTES_PER_PAYLOAD * 1024)%N ->
  documents_broadcast r1 [("create", [Some created])] = (r2, Returns tt) ->
  create (S fuel) payload s =
    (Store r2 (documents s)
       (calls s ++ [Create payload; Broadcast [("create", [Some created])]])
       (console s ++ [TypeError "length of undefined replace"]),
     Resolved tt).
Proof.
  intros Hcreate Hsmall Hsent.
  unfold create, try_catch. unfold bind at 1.
  rewrite (compose_returns payload s r1 created Hcreate).
  unfold bind at 1. rewrite broadcast_lone_create.
  assert (Hfits : within_budgets (item_length (Some created)) 1 = true).
  { apply within_budgets_true. simpl.
    unfold MAX_KILOBYTES_PER_PAYLOAD in Hsmall. lia. }
  rewrite Hfits. cbn [remote documents calls console]. unfold item. rewrite Hsent. simpl. by rewrite <- app_assoc.
Qed.

(** What [replace] and [delete] do after the lookup: nothing is sent. *)
Lemma after_lookup_quiet fuel (k : string) (i : item) commit s :
  k <> "create" ->
  exists log out,
    bind (broadcast fuel [(k, [i])])
      (fun success : bool => if success then commit else ret tt) s
    = (Store (remote s) (documents s) (calls s) log, out).
Proof.
  intros Hk. unfold bind. destruct fuel as [|fuel].
  - destruct s. by eexists _, _.
  - rewrite broadcast_lone_other by done. by eexists _, _.
Qed.

Lemma one_calls id s :
  calls (fst (one id s)) = calls s ++ [Get (IdQuery (default_null id))].
Proof.
  destruct (documents_get (remote s) (IdQuery (default_null id)))
    as [r [[|found others]|e]] eqn:Hget.
  - by rewrite (one_missing _ _ _ Hget).
  - by rewrite (one_found _ _ _ _ _ Hget).
  - by rewrite (one_throws _ _ _ _ Hget).
Qed.

Lemma replace_run fuel payload s :
  exists log out,
    replace fuel payload s =
      (Store (remote (fst (one (prop "$id" payload) s)))
         (documents (fst (one (prop "$id" payload) s)))
         (calls (fst (one (prop "$id" payload) s))) log,
       out).
Proof.
  unfold replace.
  destruct (one (prop "$id" payload) s) as [s1 [[found|]|e|]] eqn:Hone.
  - destruct (after_lookup_quiet fuel "replace" (Some (setData found payload))
                (commit_one (Some (setData found payload))) s1)
      as (log & out & Hquiet); [done|].
    unfold try_catch. unfold bind at 1. rewrite Hone.
    unfold bind at 1. cbn [call_setData ret]. rewrite Hquiet.
    destruct out; by eexists _, _.
  - unfold try_catch, bind at 1. rewrite Hone. by eexists _, _.
  - unfold try_catch, bind at 1. rewrite Hone. by eexists _, _.
  - unfold try_catch, bind at 1. rewrite Hone. destruct s1. by eexists _, _.
Qed.

Lemma delete_run fuel payload s :
  exists log out,
    delete fuel payload s =
      (Store (remote (fst (one (prop "$id" payload) s)))
         (documents (fst (one (prop "$id" payload) s)))
         (calls (fst (one (prop "$id" payload) s))) log,
       out).
Proof.
  unfold delete.
  destruct (one (prop "$id" payload) s) as [s1 [deleted|e|]] eqn:Hone.
  - destruct (after_lookup_quiet fuel "delete" deleted (commit_remove deleted) s1)
      as (log & out & Hquiet); [done|].
    unfold try_catch. unfold bind at 1. rewrite Hone. rewrite Hquiet.
    destruct out; by eexists _, _.
  - unfold try_catch, bind at 1. rewrite Hone. by eexists _, _.
  - unfold try_catch, bind at 1. rewrite Hone. destruct s1. by eexists _, _.
Qed.

(** X8.  [replace] never broadcasts: it makes the lookup of [one] and no
    other call, and leaves the remote and the mirror as that lookup left
    them; the replaced data is not sent. *)
Theorem replace_only_looks_up fuel payload s :
  calls (fst (replace fuel payload s))
  = calls s ++ [Get (IdQuery (default_null (prop "$id" payload)))]
  /\ remote (fst (replace fuel payload s)) = remote (fst (one (prop "$id" payload) s))
  /\ getters_all (fst (replace fuel payload s))
     = getters_all (fst (one (prop "$id" payload) s)).
Proof.
  destruct (replace_run fuel payload s) as (log & out & ->).
  unfold getters_all. simpl. by rewrite one_calls.
Qed.

(** X9.  [delete] never broadcasts either: it makes the lookup of [one] and
    no other call, and leaves the remote and the mirror as that lookup left
    them; nothing is evicted. *)
Theorem delete_only_looks_up fuel payload s :
  calls (fst (delete fuel payload s))
  = calls s ++ [Get (IdQuery (default_null (prop "$id" payload)))]
  /\ remote (fst (delete fuel payload s)) = remote (fst (one (prop "$id" payload) s))
  /\ getters_all (fst (delete fuel payload s))
     = getters_all (fst (one (prop "$id" payload) s)).
Proof.
  destruct (delete_run fuel payload s) as (log & out & ->).
  unfold getters_all. simpl. by rewrite one_calls.
Qed.

End SingleActions.

Lemma create_sends_unmirrored_witness :
  create 1 [("name", JStr "y")] (stub_store [] []) =
    (Store (StubRemote [] []) ∅
       [Create [("name", JStr "y")];
        Broadcast [("create", [Some (StubDocument "" [("name", JStr "y")] 1)])]]
       [TypeError "length of undefined replace"],
     Resolved tt).
Proof.
  apply (@create_sends_unmirrored stub_platform 0 [("name", JStr "y")]
           (stub_store [] []) (StubRemote [] []) (StubRemote [] [])
           (StubDocument "" [("name", JStr "y")] 1)).
  - reflexivity.
  - reflexivity.
  - reflexivity.
Defined.

(** ** The mirror after [one] and [all] *)

Section MirrorFacts.
Context `{Platform}.

(** X10.  [one] never resolves to [undefined]; when it resolves, the getter
    [one] answers the snapshot of the document found under that document's
    own [$id], and the rest of the mirror is as before. *)
Theorem one_mirrors id s s' found :
  one id s = (s', Resolved found) ->
  exists document,
    found = Some document
    /\ getters_one s' (snapshot_id (toJSON document)) = Some (toJSON document)
    /\ forall k, k <> snapshot_id (toJSON document) ->
                 getters_one s' k = getters_one s k.
Proof.
  intros Hone.
  destruct (documents_get (remote s) (IdQuery (default_null id)))
    as [r [[|document others]|e]] eqn:Hget.
  - by rewrite (one_missing _ _ _ Hget) in Hone.
  - rewrite (one_found _ _ _ _ _ Hget) in Hone.
    injection Hone as <- <-. exists document. unfold getters_one. simpl.
    split; [done|]. split; [by rewrite lookup_insert_eq|].
    intros k Hk. by rewrite lookup_insert_ne.
  - by rewrite (one_throws _ _ _ _ Hget) in Hone.
Qed.



Lemma all_loop_keeps_documents fuel allQuery :
  forall (acc : list Document) page, keeps_documents (all_loop fuel allQuery acc page).
Proof.
  induction fuel as [|fuel IH]; intros acc page s; simpl;
    destruct (page * MAX_DOCUMENTS_PER_QUERY <=? length acc); try done.
  unfold bind, retrieve, client_call.
  destruct (documents_get (remote s) _) as [r [results|e]]; simpl; [|done].
  by rewrite IH.
Qed.

(** The queries [all_loop] has made when it returns. *)
Lemma all_loop_count allQuery :
  forall fuel (acc : list Document) page s s' fetched,
  all_loop fuel allQuery acc page s = (s', Resolved fetched) ->
  page * MAX_DOCUMENTS_PER_QUERY <= length acc ->
  exists n,
    calls s' = calls s
               ++ map (fun page =>
                         Get (PageQuery allQuery (page * MAX_DOCUMENTS_PER_QUERY)
                                MAX_DOCUMENTS_PER_QUERY))
                      (seq page (S n))
    /\ (page + n) * MAX_DOCUMENTS_PER_QUERY <= length fetched
       < (page + S n) * MAX_DOCUMENTS_PER_QUERY.
Proof.
  induction fuel as [|fuel IH]; intros acc page s s' fetched Hrun Hpage;
    simpl in Hrun;
    destruct (Nat.leb_spec (page * MAX_DOCUMENTS_PER_QUERY) (length acc));
    try lia; [done|].
  unfold bind, retrieve, client_call in Hrun.
  destruct (documents_get (remote s) _) as [r [results|e]]; simpl in Hrun; [|done].
  destruct (decide ((page + 1) * MAX_DOCUMENTS_PER_QUERY <= length (acc ++ results)))
    as [Hmore|Hlast].
  - destruct (IH _ _ _ _ _ Hrun Hmore) as (n & Hcalls & Hbounds).
    exists (S n). simpl in Hcalls. rewrite Hcalls, <- app_assoc.
    split.
    + simpl. by rewrite Nat.add_1_r.
    + unfold MAX_DOCUMENTS_PER_QUERY in *. lia.
  - rewrite all_loop_stops in Hrun by lia. injection Hrun as <- <-.
    exists 0. simpl. split; [done|].
    rewrite length_app in *. unfold MAX_DOCUMENTS_PER_QUERY in *. lia.
Qed.

(** X11.  When [all] resolves, the number of queries it made is fixed by the
    number of documents it returns: one page query for each full hundred,
    and one more; the queries are those of the pages [0], [1], ... in
    order. *)
Theorem all_query_count fuel allQuery s s' fetched :
  all fuel allQuery s = (s', Resolved fetched) ->
  calls s' = calls s
             ++ page_queries allQuery (length fetched / MAX_DOCUMENTS_PER_QUERY + 1).
Proof.
  unfold all, bind, commit_all, set_documents, ret. intros Hrun.
  destruct (all_loop fuel allQuery [] 0 s) as [s1 [fetched'|e|]] eqn:Hloop;
    [|done|done].
  injection Hrun as <- <-.
  destruct (all_loop_count _ _ _ _ _ _ _ Hloop) as (n & Hcalls & Hlow & Hhigh);
    [simpl; lia|].
  simpl calls. rewrite Hcalls. unfold page_queries.
  replace (length fetched' / MAX_DOCUMENTS_PER_QUERY + 1) with (S n); [done|].
  rewrite Nat.add_1_r. f_equal.
  apply (Nat.div_unique _ _ _ (length fetched' - n * MAX_DOCUMENTS_PER_QUERY));
    unfold MAX_DOCUMENTS_PER_QUERY in *; lia.
Qed.


(** X13.  When [all] does not resolve (a query throws, or the pages never
    end), the mirror is left as it was: documents fetched by the earlier
    pages are not committed. *)
Theorem all_unsettled_keeps_mirror fuel allQuery s :
  (forall fetched, snd (all fuel allQuery s) <> Resolved fetched) ->
  getters_all (fst (all fuel allQuery s)) = getters_all s.
Proof.
  unfold getters_all, all, bind, commit_all, set_documents, ret. intros Hnot.
  pose proof (all_loop_keeps_documents fuel allQuery [] 0 s) as Hkeep.
  destruct (all_loop fuel allQuery [] 0 s) as [s1 [fetched|e|]]; simpl in *;
    [|done|done].
  by destruct (Hnot fetched).
Qed.

End MirrorFacts.

Lemma one_mirrors_witness :
  getters_one (fst (one (JStr "A") stale_store)) "A"
  = Some (StubDocument "A" [("name", JStr "a")] 20)
  /\ getters_one (fst (one (JStr "A") stale_store)) "Z"
     = getters_one stale_store "Z".
Proof.
  destruct (@one_mirrors stub_platform (JStr "A") stale_store
              (fst (one (JStr "A") stale_store))
              (Some (StubDocument "A" [("name", JStr "a")] 20)))
    as (document & Hfound & Hget & Hothers).
  - reflexivity.
  - injection Hfound as <-. split; [exact Hget|].
    apply Hothers. discriminate.
Defined.

Lemma all_query_count_witness :
  calls (fst (all 1 [] stale_store))
  = page_queries [] (length scenario_collection / MAX_DOCUMENTS_PER_QUERY + 1).
Proof.
  apply (@all_query_count stub_platform 1 [] stale_store
           (fst (all 1 [] stale_store)) scenario_collection).
  reflexivity.
Defined.


Lemma all_unsettled_keeps_mirror_witness :
  getters_all (fst (all 1 [] (stub_store scenario_collection [true])))
  = getters_all (stub_store scenario_collection [true]).
Proof.
  apply (@all_unsettled_keeps_mirror stub_platform 1 []
           (stub_store scenario_collection [true])).
  intros fetched. vm_compute. discriminate.
Defined.

(** ** [multiple] after a failed compose *)

Section FailedCompose.
Context `{Platform}.

(** [commit("one", undefined)] inside [each] throws; the documents before it
    have been committed. *)
Lemma each_commit_one_undefined (collection : list item) s :
  None ∈ collection ->
  exists s', each collection commit_one s = (s', Rejected (TypeError "payload.toJSON")).
Proof.
  revert s. induction collection as [|[document|] collection IH]; intros s Hin.
  - by apply elem_of_nil in Hin.
  - apply elem_of_cons in Hin as [?|Hin]; [done|].
    simpl. unfold bind at 1, commit_one, bind, get_documents, set_documents.
    apply IH, Hin.
  - by eexists.
Qed.

(** X14.  When the plan of [multiple] holds an [undefined] among the
    documents to create (a compose failed), [multiple] never returns [true]:
    even after a successful broadcast, the commit of the [undefined] throws
    and the action ends in its handler. *)
Theorem multiple_failed_compose fuel payload s s1 planned :
  plan (array_of "items" (fst (regulatePayload raw_length [("items", payload)])))
    no_documents s
  = (s1, Resolved planned) ->
  None ∈ array_of "create" planned ->
  snd (multiple fuel payload s) <> Resolved (Some true).
Proof.
  intros Hplan Hfailed. destruct fuel as [|fuel]; [done|].
  cbn [multiple].
  rewrite regulatePayload_items in Hplan |- *. cbn [fst] in Hplan.
  unfold try_catch, bind at 1. fold (@no_documents item). rewrite Hplan.
  unfold bind at 1.
  destruct (broadcast fuel planned s1) as [s2 [[]|e|]]; try done.
  unfold bind at 1.
  destruct (each_commit_one_undefined
              (array_of "create" planned ++ array_of "replace" planned) s2)
    as (s3 & ->); [|done].
  apply elem_of_app. by left.
Qed.

End FailedCompose.

Lemma multiple_failed_compose_witness :
  snd (multiple 4 [[("name", JStr "y")]] (stub_store [] [true]))
  <> Resolved (Some true).
Proof.
  apply (@multiple_failed_compose stub_platform 4 [[("name", JStr "y")]]
           (stub_store [] [true])
           (@Store stub_platform (StubRemote [] []) ∅
              [@Create stub_platform [("name", JStr "y")]]
              [RemoteError "scripted"])
           [("create", [None]); ("replace", []); ("delete", [])]).
  - reflexivity.
  - unfold array_of. simpl. left.
Defined.

(** ** The root module: when a resource is fetched *)

Section FetchFacts.
Context {Resource : Type}.

Lemma snoc_lookup {A} (l : list A) x : (l ++ [x]) !! length l = Some x.
Proof. by apply list_lookup_middle. Qed.

Lemma unarmed_call_once k f (w : root Resource) :
  unarmed k w -> unarmed k (fst (call_once f w)).
Proof.
  intros (Hcred & Honces & Hfetches & Hvalue & Hinit).
  unfold call_once, bind, get_root.
  destruct (onces w !! f) as [[k' []]|] eqn:Hf; simpl; try done.
  assert (Hk : k' <> k).
  { apply (Forall_lookup_1 _ _ _ _ Honces Hf). }
  unfold init_begin, bind, set_onces, commit_syncing, get_root, set_fetches.
  destruct w, k, k'; simpl in *; try done;
    (split; [done|]); (split; [by apply Forall_insert|]);
    (split; [|done]); apply Forall_app; split; try done;
    by repeat constructor.
Qed.

Lemma unarmed_getter k k' (w : root Resource) :
  unarmed k w -> unarmed k (fst (getter k' w)).
Proof.
  intros Hinv. destruct (getter_state k' w) as [->|(f & _ & ->)]; [done|].
  by apply unarmed_call_once.
Qed.

(** The state [init] leaves. *)
Lemma dispatch_init_state (w : root Resource) :
  fst (dispatch_init w) =
    Root (mnemonic w) (identityId w)
      (SyncState None
         (if truthy (mnemonic w) then Some (length (onces w)) else None)
         None false)
      (SyncState None
         (if truthy (identityId w)
          then Some (length (if truthy (mnemonic w)
                             then onces w ++ [OnceFn Account false]
                             else onces w))
          else None)
         None false)
      false
      ((if truthy (mnemonic w) then onces w ++ [OnceFn Account false] else onces w)
       ++ (if truthy (identityId w) then [OnceFn Identity false] else []))
      (fetches w) (stamps w) (listeners w) (debugged w).
Proof.
  destruct w as [m i a d g os fs ss ls ds].
  unfold dispatch_init, bind, commit_value, commit_synced, commit_syncing,
    commit_identityRegistering, commit_init, get_root, once; simpl.
  destruct (truthy m), (truthy i); simpl; by rewrite ?app_nil_r.
Qed.

Lemma unarmed_dispatch_init k (w : root Resource) :
  unarmed k w -> unarmed k (fst (dispatch_init w)).
Proof.
  intros (Hcred & Honces & Hfetches & Hvalue & Hinit).
  rewrite dispatch_init_state. unfold unarmed.
  destruct k; simpl in *; rewrite Hcred; clear Hcred;
    (split; [done|]); (split; [|done]);
    rewrite ?app_nil_r.
  - destruct (truthy (identityId w)); rewrite ?app_nil_r; [|done].
    apply Forall_app. split; [done|]. by repeat constructor.
  - destruct (truthy (mnemonic w)); [|done].
    apply Forall_app. split; [done|]. by repeat constructor.
Qed.

Lemma on_transaction_frame registered now (w : root Resource) :
  mnemonic (fst (on_transaction registered now w)) = mnemonic w
  /\ identityId (fst (on_transaction registered now w)) = identityId w
  /\ onces (fst (on_transaction registered now w)) = onces w
  /\ fetches (fst (on_transaction registered now w)) = fetches w
  /\ (forall k, value (resource k (fst (on_transaction registered now w)))
                = value (resource k w))
  /\ (forall k, init (resource k (fst (on_transaction registered now w)))
                = init (resource k w)).
Proof.
  revert w. induction registered as [|registered IH]; intros w; [done|].
  simpl. unfold bind at 1, stamp_synced, bind, commit_synced. simpl.
  match goal with |- context [on_transaction registered now ?w1] =>
    destruct (IH w1) as (Hm & Hi & Ho & Hf & Hv & Hn)
  end.
  rewrite Hm, Hi, Ho, Hf. repeat split; try done.
  - intros k. rewrite Hv. by destruct k.
  - intros k. rewrite Hn. by destruct k.
Qed.

Lemma unarmed_settle k n res now (w : root Resource) :
  unarmed k w -> unarmed k (step (FetchSettles n res now) w).
Proof.
  intros (Hcred & Honces & Hfetches & Hvalue & Hinit).
  unfold step, handle, bind, get_root.
  destruct (fetches w !! n) as [[k' [|res']]|] eqn:Hn; simpl; try done.
  assert (Hk : k' <> k).
  { apply (Forall_lookup_1 _ _ _ _ Hfetches Hn). }
  assert (Hkept : Forall (fun f : resource_kind * fetch_status Resource => fst f <> k)
                    (<[n := (k', Settled res)]> (fetches w)))
    by by apply Forall_insert.
  destruct res as [fetched|e].
  - rewrite init_resume_returns.
    destruct w, k, k'; simpl in *; done.
  - rewrite init_resume_throws.
    destruct w, k, k'; simpl in *; done.
Qed.

Lemma unarmed_step k e (w : root Resource) :
  unarmed k w -> unarmed k (step e w).
Proof.
  intros Hinv. destruct e as [|k'|f|n res now|now].
  - by apply unarmed_dispatch_init.
  - rewrite step_read. by apply unarmed_getter.
  - by apply unarmed_call_once.
  - by apply unarmed_settle.
  - unfold step, handle, bind, get_root.
    destruct Hinv as (Hcred & Honces & Hfetches & Hvalue & Hinit).
    destruct (on_transaction_frame (listeners w) now w)
      as (Hm & Hi & Ho & Hf & Hv & Hn).
    unfold unarmed. rewrite Ho, Hf, Hv, Hn.
    repeat split; try done. by destruct k; simpl in *; rewrite ?Hm, ?Hi.
Qed.

Lemma unarmed_run k events :
  forall w : root Resource, unarmed k w -> unarmed k (run events w).
Proof.
  induction events as [|e events IH]; intros w Hinv; [done|].
  apply IH. by apply unarmed_step.
Qed.

(** X15.  Without a mnemonic in the options the account is never fetched,
    and without an identity ID the identity is never fetched: from the state
    the module is registered with, whatever is dispatched, read, called or
    comes back, no fetch of the resource is issued and its getter answers
    [null] and changes nothing. *)
Theorem no_credential_no_fetch k options_mnemonic options_identityId
    (events : list (event Resource)) :
  truthy (credential k (@registered Resource options_mnemonic options_identityId))
  = false ->
  fetch_calls k (run events (registered options_mnemonic options_identityId)) = 0
  /\ getter k (run events (registered options_mnemonic options_identityId))
     = (run events (registered options_mnemonic options_identityId), Resolved None).
Proof.
  intros Hcred.
  destruct (unarmed_run k events (registered options_mnemonic options_identityId))
    as (_ & _ & Hfetches & Hvalue & Hinit).
  { repeat split; try done; by destruct k. }
  split.
  - unfold fetch_calls.
    induction Hfetches as [|f l Hf _ IH]; [done|].
    by rewrite filter_cons_False.
  - unfold getter, bind, get_root. by rewrite Hvalue, Hinit.
Qed.

(** X16.  [init] fetches nothing itself; the first read of the getter after
    it answers [null] and issues the fetch of the resource exactly when the
    option it is fetched with (the mnemonic, the identity ID) is truthy,
    whatever state [init] was dispatched in. *)
Theorem read_after_init k (s : root Resource) :
  fetch_calls k (step DispatchInit s) = fetch_calls k s
  /\ snd (getter k (step DispatchInit s)) = Resolved None
  /\ fetch_calls k (fst (getter k (step DispatchInit s)))
     = fetch_calls k s + (if truthy (credential k s) then 1 else 0).
Proof.
  unfold step, handle. rewrite dispatch_init_state.
  split; [done|].
  unfold fetch_calls, getter, call_once, bind, get_root.
  destruct k; simpl.
  - destruct (truthy (mnemonic s)); simpl; [|auto with lia].
    destruct (truthy (identityId s)); simpl.
    + rewrite lookup_app_l by (rewrite length_app; simpl; lia).
      rewrite snoc_lookup. simpl. by rewrite count_kind_snoc.
    + rewrite app_nil_r, snoc_lookup. simpl. by rewrite count_kind_snoc.
  - destruct (truthy (identityId s)); simpl; [|auto with lia].
    rewrite snoc_lookup. simpl. by rewrite count_kind_snoc.
Qed.

Lemma step_settles_returns k n fetched now (s : root Resource) :
  fetches s !! n = Some (k, InFlight) ->
  step (FetchSettles n (Returns fetched) now) s =
    set_resource k (SyncState (Some fetched) None (Some now) false)
      (Root (mnemonic s) (identityId s) (account s) (identity s)
         (identityRegistering s) (onces s)
         (<[n := (k, Settled (Returns fetched))]> (fetches s))
         (stamps s ++ [(k, now)])
         (match k with Account => S (listeners s) | Identity => listeners s end)
         (debugged s)).
Proof.
  intros Hn. unfold step, handle, bind at 1, get_root. rewrite Hn.
  unfold bind at 1, set_fetches. by rewrite init_resume_returns.
Qed.

Lemma getter_after_settle k n fetched now (s : root Resource) :
  fetches s !! n = Some (k, InFlight) ->
  now <> 0%Z ->
  getter k (step (FetchSettles n (Returns fetched) now) s)
  = (step (FetchSettles n (Returns fetched) now) s, Resolved (Some fetched)).
Proof.
  intros Hn Hnow. rewrite (step_settles_returns _ _ _ _ _ Hn).
  unfold getter, bind, get_root. rewrite resource_set_resource.
  rewrite decide_True by done. unfold synced_truthy. simpl.
  apply Z.eqb_neq in Hnow. by rewrite Hnow.
Qed.

(** X17.  When the fetch of a resource comes back with a result (and the
    clock does not read 0), the getter answers that result from then on, and
    reading it changes nothing. *)
Theorem settled_resource_is_read k n fetched now (s : root Resource) :
  fetches s !! n = Some (k, InFlight) ->
  now <> 0%Z ->
  getter k (step (FetchSettles n (Returns fetched) now) s)
  = (step (FetchSettles n (Returns fetched) now) s, Resolved (Some fetched)).
Proof. apply getter_after_settle. Qed.

(** X18.  [init] does not cancel a fetch in flight: when a fetch issued
    before [init] comes back after it, its result is what the getter answers,
    and the trigger that [init] had armed is cleared without being called. *)
Theorem init_keeps_fetch_in_flight k n fetched now (s : root Resource) :
  fetches s !! n = Some (k, InFlight) ->
  now <> 0%Z ->
  snd (getter k (run [DispatchInit; FetchSettles n (Returns fetched) now] s))
  = Resolved (Some fetched)
  /\ init (resource k (run [DispatchInit; FetchSettles n (Returns fetched) now] s))
     = None
  /\ fetch_calls k (run [DispatchInit; FetchSettles n (Returns fetched) now] s)
     = fetch_calls k s.
Proof.
  intros Hn Hnow. simpl.
  assert (Hkept : fetches (step DispatchInit s) = fetches s).
  { unfold step, handle. by rewrite dispatch_init_state. }
  rewrite <- Hkept in Hn.
  rewrite (getter_after_settle k n fetched now _ Hn Hnow).
  split; [done|].
  unfold fetch_calls. rewrite <- Hkept.
  rewrite (step_settles_returns _ _ _ _ _ Hn).
  rewrite resource_set_resource, decide_True by done.
  split; [done|].
  destruct k; simpl; by rewrite (count_kind_insert _ _ _ _ _ _ Hn).
Qed.

End FetchFacts.

Lemma no_credential_no_fetch_witness :
  fetch_calls Account (run without_mnemonic (registered JNull (JStr "id"))) = 0
  /\ getter Account (run without_mnemonic (registered JNull (JStr "id")))
     = (run without_mnemonic (registered JNull (JStr "id")), Resolved None).
Proof.
  apply (@no_credential_no_fetch unit Account JNull (JStr "id") without_mnemonic).
  reflexivity.
Defined.

Lemma settled_resource_is_read_witness :
  getter Account (step (FetchSettles 0 (Returns tt) 5) account_in_flight)
  = (step (FetchSettles 0 (Returns tt) 5) account_in_flight, Resolved (Some tt)).
Proof.
  apply (@settled_resource_is_read unit Account 0 tt 5%Z account_in_flight).
  - reflexivity.
  - discriminate.
Defined.

Lemma init_keeps_fetch_in_flight_witness :
  snd (getter Account
         (run [DispatchInit; FetchSettles 0 (Returns tt) 5] account_in_flight))
  = Resolved (Some tt)
  /\ init (resource Account
             (run [DispatchInit; FetchSettles 0 (Returns tt) 5] account_in_flight))
     = None
  /\ fetch_calls Account
       (run [DispatchInit; FetchSettles 0 (Returns tt) 5] account_in_flight)
     = fetch_calls Account account_in_flight.
Proof.
  apply (@init_keeps_fetch_in_flight unit Account 0 tt 5%Z account_in_flight).
  - reflexivity.
  - discriminate.
Defined.

(** ** The options *)

Lemma obj_get_set {V} (k k' : string) (v : V) (o : obj V) :
  obj_get k (obj_set k' v o) = if String.eqb k k' then Some v else obj_get k o.
Proof.
  induction o as [|[k0 v0] o IH]; simpl.
  - done.
  - destruct (String.eqb_spec k' k0) as [->|Hne]; simpl.
    + by destruct (String.eqb_spec k k0).
    + rewrite IH.
      destruct (String.eqb_spec k k0) as [Heq|Hne'],
               (String.eqb_spec k k') as [Heq'|Hne'']; congruence.
Qed.

Lemma keys_obj_set {V} (k : string) (v : V) (o : obj V) :
  keys (obj_set k v o) = if decide (k ∈ keys o) then keys o else keys o ++ [k].
Proof.
  induction o as [|[k0 v0] o IH].
  - destruct (decide (k ∈ keys [])) as [Hin|_]; [|done].
    by apply elem_of_nil in Hin.
  - cbn [obj_set]. destruct (String.eqb_spec k k0) as [->|Hne].
    + destruct (decide (k0 ∈ keys ((k0, v0) :: o))) as [_|Hout]; [done|].
      exfalso. apply Hout. simpl. left.
    + unfold keys in *. cbn [map fst]. rewrite IH.
      destruct (decide (k ∈ map fst o)) as [Hin|Hout],
               (decide (k ∈ k0 :: map fst o)) as [Hin'|Hout']; try done.
      * exfalso. apply Hout'. by right.
      * apply elem_of_cons in Hin' as [?|?]; done.
Qed.

Lemma obj_set_NoDup {V} (k : string) (v : V) (o : obj V) :
  NoDup (keys o) -> NoDup (keys (obj_set k v o)).
Proof.
  intros Hnd. rewrite keys_obj_set. destruct (decide (k ∈ keys o)); [done|].
  apply NoDup_app. split; [done|]. split; [|apply NoDup_singleton].
  intros x Hx Hk. apply elem_of_cons in Hk as [->|Hk]; [done|].
  by apply elem_of_nil in Hk.
Qed.

(** A lookup in [{ ...a, ...b }]: the property of [b] when it has one,
    also one that is [undefined]; that of [a] otherwise. *)
Lemma obj_get_spread {V} (k : string) (b : obj V) :
  forall a : obj V,
  NoDup (keys b) ->
  obj_get k (spread a b)
  = match obj_get k b with Some v => Some v | None => obj_get k a end.
Proof.
  induction b as [|[k' v] b IH]; intros a Hnd; [done|].
  simpl in Hnd. apply NoDup_cons in Hnd as [Hk' Hnd].
  change (spread a ((k', v) :: b)) with (spread (obj_set k' v a) b).
  rewrite IH by done. rewrite obj_get_set. simpl.
  destruct (String.eqb_spec k k') as [->|Hne]; [|done].
  apply obj_get_absent in Hk'. by rewrite Hk'.
Qed.

Lemma is_digit_pretty_N_char x : is_digit (pretty_N_char x) = true.
Proof.
  destruct x as [|p]; [done|].
  by repeat (destruct p as [p|p|]; try done).
Qed.

Lemma leading_digit_pretty_N_go x :
  forall s, (0 < x)%N \/ leading_digit s = true ->
            leading_digit (pretty_N_go x s) = true.
Proof.
  induction (N.lt_wf_0 x) as [x _ IH]; intros s Hs.
  destruct (decide (x = 0)%N) as [->|Hx].
  - rewrite pretty_N_go_0. destruct Hs; [lia|done].
  - rewrite pretty_N_go_step by lia. apply IH.
    + apply N.div_lt; lia.
    + right. simpl. apply is_digit_pretty_N_char.
Qed.

Lemma leading_digit_index_key index : leading_digit (index_key index) = true.
Proof.
  unfold index_key, pretty, pretty_nat, pretty, pretty_N.
  destruct (decide (N.of_nat index = 0)%N); [done|].
  apply leading_digit_pretty_N_go. lia.
Qed.

Section Subscription.
Variable combined : obj jsval.

Lemma reduce_from_NoDup (subscriptions : list string) :
  forall index (result : obj jsval),
  NoDup (keys result) ->
  NoDup (keys (reduce_from
                 (fun result value key =>
                    obj_set (index_key key) (prop value combined) result)
                 subscriptions index result)).
Proof.
  induction subscriptions as [|value rest IH]; intros index result Hnd; [done|].
  simpl. apply IH. by apply obj_set_NoDup.
Qed.

Lemma reduce_from_other (k : string) (subscriptions : list string) :
  forall index (result : obj jsval),
  (forall i, index <= i -> index_key i <> k) ->
  obj_get k (reduce_from
               (fun result value key =>
                  obj_set (index_key key) (prop value combined) result)
               subscriptions index result)
  = obj_get k result.
Proof.
  induction subscriptions as [|value rest IH]; intros index result Hk; [done|].
  simpl. rewrite IH by (intros i Hi; apply Hk; lia).
  rewrite obj_get_set. destruct (String.eqb_spec k (index_key index)) as [->|]; [|done].
  by destruct (Hk index).
Qed.

Lemma reduce_from_index (subscriptions : list string) :
  forall index (result : obj jsval) i value,
  subscriptions !! i = Some value ->
  obj_get (index_key (index + i))
    (reduce_from
       (fun result value key =>
          obj_set (index_key key) (prop value combined) result)
       subscriptions index result)
  = Some (prop value combined).
Proof.
  induction subscriptions as [|value' rest IH]; intros index result i value Hi;
    [done|].
  destruct i as [|i]; simpl in *.
  - injection Hi as ->. rewrite Nat.add_0_r, reduce_from_other.
    + by rewrite obj_get_set, String.eqb_refl.
    + intros i Hi Heq. apply (inj pretty) in Heq. lia.
  - rewrite <- Nat.add_succ_comm. by apply IH.
Qed.

(** X19.  The subscription to the root store, given an array of field
    names, writes each synced value under the index of its name in the
    array: after [updateOptions], the option [0] holds the value of the
    first field, [1] that of the second, and so on, while every option whose
    name does not begin with a digit ([mnemonic], [identityId], ...) has
    the value it had. *)
Theorem sync_writes_index_keys (subscriptions : list string) (options : obj jsval) :
  (forall k, leading_digit k = false ->
             prop k (updateOptions options (updatedOptions subscriptions combined))
             = prop k options)
  /\ (forall i value, subscriptions !! i = Some value ->
        prop (index_key i)
             (updateOptions options (updatedOptions subscriptions combined))
        = prop value combined).
Proof.
  assert (Hnd : NoDup (keys (updatedOptions subscriptions combined))).
  { apply reduce_from_NoDup. constructor. }
  split.
  - intros k Hk. unfold prop, updateOptions. rewrite obj_get_spread by done.
    unfold updatedOptions, reduce. rewrite reduce_from_other; [done|].
    intros i _ Heq. rewrite <- Heq, leading_digit_index_key in Hk. done.
  - intros i value Hi. unfold prop, updateOptions. rewrite obj_get_spread by done.
    unfold updatedOptions, reduce.
    pose proof (reduce_from_index subscriptions 0 [] i value Hi) as Hget.
    simpl in Hget. by rewrite Hget.
Qed.

End Subscription.

Section Unconfigured.
Context {Resource : Type}.

(** X20.  A resource whose option the config leaves out, or gives a falsy
    value, is never fetched: the default of [mnemonic] and of [identityId]
    is [null], so that after the plugin is installed no dispatch, read, call
    or answer leads to a fetch, and the getter answers [null]. *)
Theorem unconfigured_never_fetched k (config : obj jsval)
    (events : list (event Resource)) :
  NoDup (keys config) ->
  truthy (prop (option_name k) config) = false ->
  fetch_calls k (run events (installed config)) = 0
  /\ snd (getter k (run events (installed config))) = Resolved None.
Proof.
  intros Hnd Hfalsy.
  assert (Hcred : truthy (credential k (@installed Resource config)) = false).
  { unfold installed, pluginOptions, prop in *.
    destruct k; simpl in *; rewrite obj_get_spread by done;
      by destruct (obj_get _ config). }
  destruct (unarmed_run k events (installed config))
    as (_ & _ & Hfetches & Hvalue & Hinit).
  { repeat split; try done; by destruct k. }
  split.
  - unfold fetch_calls.
    induction Hfetches as [|f l Hf _ IH]; [done|].
    by rewrite filter_cons_False.
  - unfold getter, bind, get_root. by rewrite Hvalue, Hinit.
Qed.

End Unconfigured.

Lemma unconfigured_never_fetched_witness :
  fetch_calls Account (run without_mnemonic (installed config_without_mnemonic)) = 0
  /\ snd (getter Account (run without_mnemonic (installed config_without_mnemonic)))
     = Resolved None.
Proof.
  apply (@unconfigured_never_fetched unit Account config_without_mnemonic
           without_mnemonic).
  - apply (bool_decide_unpack _). by vm_compute.
  - reflexivity.
Defined.
